(** * go-dns-caching-resolver: a shallow embedding of the resolver package

    The development follows the source files of the package:

    - [Ips]       : src/ips.go, the round-robin address set;
    - [DnsClient] : the nameserver client (dnsLookupHost, lookupHost,
                    setNameServers, parseNameServers);
    - [Host]      : src/host.go, the per-host refresh life cycle;
    - [Registry]  : src/resolver.go, the map of maintained hosts;
    - [Spec]      : the notions in which the behaviour is stated;
    - [Scenario]  : concrete collaborators on which the code is run.

    The properties follow, one module of facts per source file.

    Go values are modelled as follows.  A [uint64]/[uint32]/[int64] is a [Z]
    with the wrap-around written out; a [net.IP] is a list of bytes and the nil
    [net.IP] is [None]; a nil slice and an empty slice are both [[]]; a Go
    [error] is [option error] with nil as [None]; a run-time panic is the
    [Panic] outcome.  Collaborators outside the package ([net.ParseIP],
    [net.LookupHost], [dns.Exchange], [time.Now]) are arguments. *)

From Stdlib Require Import ZArith Lia List String Ascii Bool.
From stdpp Require Import base gmap strings list fin_maps.
From Stdlib Require Import Sorted.

Open Scope Z_scope.

(** ** Machine integers *)

Definition wrap64 (z : Z) : Z := z mod 2 ^ 64.

(** [int(x)] for [x : uint64] on a 64-bit platform: two's complement. *)
Definition int_of_uint64 (z : Z) : Z :=
  if wrap64 z <? 2 ^ 63 then wrap64 z else wrap64 z - 2 ^ 64.

(** [int64] subtraction. *)
Definition sub_int64 (a b : Z) : Z :=
  (a - b + 2 ^ 63) mod 2 ^ 64 - 2 ^ 63.

Definition MaxUint32 : Z := 2 ^ 32 - 1.

(** Turns the powers of two of the machine widths into numerals for [lia]. *)
Ltac pow2 :=
  change (2 ^ 64) with 18446744073709551616 in *;
  change (2 ^ 63) with 9223372036854775808 in *;
  change (2 ^ 32) with 4294967296 in *.

Definition IP : Type := list Byte.byte.

Definition error : Type := string.

(** Outcome of code that may panic at run time. *)
Inductive outcome (A : Type) : Type :=
  | Done (a : A)
  | Panic (msg : string).
Arguments Done {A} a.
Arguments Panic {A} msg.

(** ** src/ips.go *)

Module Ips.

Record ips : Type := Build_ips { ipIdx : Z; ipList : list IP }.

Definition newIps : ips := {| ipIdx := 0; ipList := [] |}.

Definition setIpList (l : list IP) (i : ips) : ips :=
  {| ipIdx := ipIdx i; ipList := l |}.

(** Returns the pair [(ipRet, int(idx))] and the set after the
    [atomic.AddUint64(&i.ipIdx, 1)]; the empty branch returns before the
    increment. *)
Definition getNextIPWithIndex (i : ips) : (option IP * Z) * ips :=
  if (Z.of_nat (length (ipList i)) =? 0) then ((None, 0), i)
  else
    let idx := ipIdx i mod Z.of_nat (length (ipList i)) in
    ((ipList i !! Z.to_nat idx, idx),
     {| ipIdx := wrap64 (ipIdx i + 1); ipList := ipList i |}).

Definition getList (i : ips) : list IP := ipList i.

(** [n] consecutive reads with nothing in between: the values returned, in
    order, and the set after the last read. *)
Fixpoint reads (n : nat) (i : ips) : list (option IP * Z) * ips :=
  match n with
  | O => ([], i)
  | S n' =>
      let '(r, i') := getNextIPWithIndex i in
      let '(rs, i'') := reads n' i' in
      (r :: rs, i'')
  end.

(** The round-robin property of a 3-address set, as the specification words
    it: the first three reads are the three addresses, each once, and the
    fourth read is the first one again. *)
Definition cycles3 (i : ips) : Prop :=
  match fst (reads 4 i), ipList i with
  | [r1; r2; r3; r4], [a; b; c] =>
      [r1; r2; r3] ≡ₚ [(Some a, 0); (Some b, 1); (Some c, 2)] ∧ r4 = r1
  | _, _ => False
  end.

End Ips.

(** ** The nameserver client (src/unnamed/part_000) *)

Module DnsClient.

Definition defaultTtl : Z := 60.

(** The answer records of [github.com/miekg/dns] as far as the client looks
    at them: the record type, [Header().Ttl] and the address. *)
Inductive RR : Type :=
  | RR_A (ttl : Z) (a : IP)
  | RR_AAAA (ttl : Z) (aaaa : IP)
  | RR_other (ttl : Z).

Inductive qtype : Type := TypeA | TypeAAAA.

(** What [dns.Exchange] returns: [(in, nil)] or [(_, err)]. *)
Inductive exchanged : Type :=
  | Answer (rrs : list RR)
  | ExchangeErr (e : error).

(** What [net.LookupHost] returns: [(addrs, nil)] or [(_, err)]. *)
Inductive resolved : Type :=
  | Addrs (addrs : list string)
  | ResolveErr (e : error).

(** How far the two goroutines of one dual query have got when the main
    goroutine reads [ttl4] and [ttl6] at lines 139-142, which it does
    before [g.Wait()] at line 146: the number of answer records each has
    gone through by then.  [aaaaFirst] tells which goroutine returned its
    error first, for [errgroup] keeps the first one. *)
Record interleaving : Type :=
  { seen4 : nat; seen6 : nat; aaaaFirst : bool }.

(** The collaborators outside the package. *)
Record env : Type :=
  { ParseIP : string -> option IP;
    LookupHost : string -> resolved;
    (* server address with port, question name, question type *)
    Exchange : string -> string -> qtype -> exchanged;
    (* the scheduling of the dual query against a server *)
    Sched : string -> interleaving }.

Record dnsClient : Type :=
  { nsCounter : Z; nameServers : list string }.

Record lookupResult : Type :=
  { r_ip4 : list IP; r_ip6 : list IP; r_ttl : Z; r_err : option error }.

Definition newDnsClient : dnsClient := {| nsCounter := 0; nameServers := [] |}.

Definition parseNameServers (E : env) (nameServers : list string) : list string :=
  List.filter (fun ns => match ParseIP E ns with Some _ => true | None => false end)
              nameServers.

Definition setNameServers (E : env) (nameServers : list string) (d : dnsClient)
  : dnsClient :=
  {| nsCounter := nsCounter d; nameServers := parseNameServers E nameServers |}.

(** One turn of the loops at lines 108-115 and 127-134 on the pair
    [(ip, ttl)] of the goroutine. *)
Definition collect (q : qtype) (acc : list IP * Z) (rr : RR) : list IP * Z :=
  match q, rr with
  | TypeA, RR_A t a | TypeAAAA, RR_AAAA t a =>
      (fst acc ++ [a], if t <? snd acc then t else snd acc)
  | _, _ => acc
  end.

Definition scan (q : qtype) (rrs : list RR) : list IP * Z :=
  fold_left (collect q) rrs ([], MaxUint32).

(** The variables of a goroutine once it has gone through [n] records. *)
Definition after (q : qtype) (x : exchanged) (n : nat) : list IP * Z :=
  match x with
  | Answer rrs => scan q (firstn n rrs)
  | ExchangeErr _ => ([], MaxUint32)
  end.

(** The variables of a goroutine when it has returned. *)
Definition finished (q : qtype) (x : exchanged) : list IP * Z :=
  match x with
  | Answer rrs => scan q rrs
  | ExchangeErr _ => ([], MaxUint32)
  end.

Definition goErr (x : exchanged) : option error :=
  match x with Answer _ => None | ExchangeErr e => Some e end.

(** [g.Wait()]: the first non-nil error of the group. *)
Definition Wait (il : interleaving) (e4 e6 : option error) : option error :=
  match e4, e6 with
  | Some a, Some b => if aaaaFirst il then Some b else Some a
  | Some a, None => Some a
  | None, e => e
  end.

(** Lines 138-144, on the values of [ttl4] and [ttl6] read there. *)
Definition selectTtl (ttl4 ttl6 : Z) : Z :=
  let ttl := defaultTtl in
  let ttl :=
    if (defaultTtl <? ttl4) && negb (ttl4 =? MaxUint32) then ttl4 else ttl in
  let ttl :=
    if (defaultTtl <? ttl6) && negb (ttl6 =? MaxUint32) && (ttl6 <? ttl4)
    then ttl6 else ttl in
  ttl.

(** [ip4] and [ip6] are the slices after the join. *)
Definition dnsLookupHost (E : env) (nServer host : string) : lookupResult :=
  let x4 := Exchange E (nServer ++ ":53")%string host TypeA in
  let x6 := Exchange E (nServer ++ ":53")%string host TypeAAAA in
  let il := Sched E nServer in
  let ttl4 := snd (after TypeA x4 (seen4 il)) in
  let ttl6 := snd (after TypeAAAA x6 (seen6 il)) in
  let ttl := selectTtl ttl4 ttl6 in
  {| r_ip4 := fst (finished TypeA x4);
     r_ip6 := fst (finished TypeAAAA x6);
     r_ttl := ttl;
     r_err := Wait il (goErr x4) (goErr x6) |}.

(** Both goroutines of the dual query against [nServer] have returned when
    the TTL is selected. *)
Definition joined (E : env) (nServer host : string) : Prop :=
  after TypeA (Exchange E (nServer ++ ":53")%string host TypeA)
        (seen4 (Sched E nServer))
  = finished TypeA (Exchange E (nServer ++ ":53")%string host TypeA)
  /\ after TypeAAAA (Exchange E (nServer ++ ":53")%string host TypeAAAA)
           (seen6 (Sched E nServer))
     = finished TypeAAAA (Exchange E (nServer ++ ":53")%string host TypeAAAA).

(** [strings.Contains(addr, ":")] *)
Definition containsColon (addr : string) : bool :=
  match index 0 ":" addr with Some _ => true | None => false end.

(** Lines 62-67: the map [ips] from [isV6] to the addresses so far. *)
Definition partition1 (E : env) (ips : bool -> list IP) (addr : string)
  : bool -> list IP :=
  match ParseIP E addr with
  | Some netIP =>
      let isV6 := containsColon addr in
      fun k => if Bool.eqb k isV6 then ips isV6 ++ [netIP] else ips k
  | None => ips
  end.

(** What other goroutines do to the shared client between two critical
    sections of a lookup: [intf i] runs before the [i]-th turn of the loop
    takes the read lock at line 78. *)
Definition interference : Type := nat -> dnsClient -> dnsClient.

Definition quiet : interference := fun _ d => d.

Definition bump (d : dnsClient) : dnsClient :=
  {| nsCounter := wrap64 (nsCounter d + 1); nameServers := nameServers d |}.

(** The loop at lines 77-88 with [k] turns left, [i] being the loop
    variable.  The list of servers tried is kept to state the claims. *)
Fixpoint attempts (E : env) (intf : interference) (host : string)
    (k i : nat) (d : dnsClient) (last : lookupResult) (tried : list string)
  : outcome (lookupResult * dnsClient * list string) :=
  match k with
  | O => Done (last, d, tried)
  | S k' =>
      let d := intf i d in
      let len := Z.of_nat (length (nameServers d)) in
      if len =? 0 then Panic "integer divide by zero"
      else
        let nsIdx := Z.rem (int_of_uint64 (nsCounter d)) len in
        if nsIdx <? 0 then Panic "index out of range"
        else
          match nameServers d !! Z.to_nat nsIdx with
          | None => Panic "index out of range"
          | Some nServer =>
              let r := dnsLookupHost E nServer host in
              match r_err r with
              | None => Done (r, d, tried ++ [nServer])
              | Some _ =>
                  attempts E intf host k' (S i) (bump d) r (tried ++ [nServer])
              end
          end
  end.

Definition lookupHost (E : env) (intf : interference) (host : string)
    (d : dnsClient)
  : outcome (lookupResult * dnsClient * list string) :=
  let nsCnt := length (nameServers d) in
  if Nat.eqb nsCnt 0 then
    match LookupHost E host with
    | ResolveErr _ =>
        Done ({| r_ip4 := []; r_ip6 := []; r_ttl := defaultTtl; r_err := None |},
              d, [])
    | Addrs addrs =>
        let ips := fold_left (partition1 E) addrs (fun _ => []) in
        Done ({| r_ip4 := ips false; r_ip6 := ips true;
                 r_ttl := defaultTtl; r_err := None |}, d, [])
    end
  else
    attempts E intf host nsCnt 0 d
             {| r_ip4 := []; r_ip6 := []; r_ttl := 0; r_err := None |} [].

End DnsClient.

(** ** src/host.go *)

Module Host.
Import Ips DnsClient.

(** [30 * time.Minute], in seconds. *)
Definition oldHostDuration : Z := 30 * 60.
Definition retryIntervalSec : Z := 10.

(** [ready] tells that [ready.Done()] has been called, [stopCh] that the
    channel is closed.  The shared [dnsClient] is passed to the methods that
    use it. *)
Record host : Type :=
  { hostName : string;
    ip4 : ips;
    ip6 : ips;
    lastTime : Z;
    eaFlag : bool;
    ready : bool;
    stopCh : bool }.

(** The state of the goroutine [reloadIPsLoop] of a host. *)
Inductive task : Type :=
  | Starting            (* before the first reloadIPs, line 78 *)
  | Waiting (ttl : Z)   (* in the select at line 83 *)
  | Exited.             (* returned, line 86 *)

(** The case of the select that fires. *)
Inductive wake : Type := StopCh | TtlCh.

(** The record built at lines 38-48; the goroutine of line 51 is the [task]
    kept next to it, see [Registry.cell]. *)
Definition newHost (hName : string) (eaFlag : bool) (now : Z) : host :=
  {| hostName := hName; ip4 := newIps; ip6 := newIps; lastTime := now;
     eaFlag := eaFlag; ready := false; stopCh := false |}.

Definition updLastTime (now : Z) (h : host) : host :=
  {| hostName := hostName h; ip4 := ip4 h; ip6 := ip6 h; lastTime := now;
     eaFlag := eaFlag h; ready := ready h; stopCh := stopCh h |}.

Definition withIp4 (i : ips) (h : host) : host :=
  {| hostName := hostName h; ip4 := i; ip6 := ip6 h; lastTime := lastTime h;
     eaFlag := eaFlag h; ready := ready h; stopCh := stopCh h |}.

Definition withIp6 (i : ips) (h : host) : host :=
  {| hostName := hostName h; ip4 := ip4 h; ip6 := i; lastTime := lastTime h;
     eaFlag := eaFlag h; ready := ready h; stopCh := stopCh h |}.

(** [None]: the caller is blocked in [ready.Wait()]. *)
Definition getNextIP4WithIndex (now : Z) (h : host)
  : option ((option IP * Z) * host) :=
  if ready h then
    let '(ret, i) := getNextIPWithIndex (ip4 h) in
    Some (ret, updLastTime now (withIp4 i h))
  else None.

Definition getNextIP6WithIndex (now : Z) (h : host)
  : option ((option IP * Z) * host) :=
  if ready h then
    let '(ret, i) := getNextIPWithIndex (ip6 h) in
    Some (ret, updLastTime now (withIp6 i h))
  else None.

Definition getIPs (h : host) : option (list IP * list IP) :=
  if ready h then Some (getList (ip4 h), getList (ip6 h)) else None.

(** Returns the ttl, the host and the shared client after the lookup. *)
Definition reloadIPs (E : env) (intf : interference) (h : host) (d : dnsClient)
  : outcome (Z * host * dnsClient) :=
  match lookupHost E intf (hostName h) d with
  | Panic msg => Panic msg
  | Done (r, d', _) =>
      match r_err r with
      | Some _ => Done (retryIntervalSec, h, d')
      | None =>
          Done (r_ttl r,
                withIp6 (setIpList (r_ip6 r) (ip6 h))
                        (withIp4 (setIpList (r_ip4 r) (ip4 h)) h),
                d')
      end
  end.

Definition setReady (h : host) : host :=
  {| hostName := hostName h; ip4 := ip4 h; ip6 := ip6 h; lastTime := lastTime h;
     eaFlag := eaFlag h; ready := true; stopCh := stopCh h |}.

(** One step of the goroutine: the first refresh, or one turn of the select.
    [None]: the case [w] cannot fire (the stop channel is open, or the
    goroutine has returned). *)
Definition reloadIPsLoop (E : env) (intf : interference) (w : wake)
    (t : task) (h : host) (d : dnsClient)
  : option (outcome (task * host * dnsClient)) :=
  match t with
  | Starting =>
      Some match reloadIPs E intf h d with
           | Panic msg => Panic msg
           | Done (ttl, h', d') => Done (Waiting ttl, setReady h', d')
           end
  | Waiting _ =>
      match w with
      | StopCh => if stopCh h then Some (Done (Exited, h, d)) else None
      | TtlCh =>
          Some match reloadIPs E intf h d with
               | Panic msg => Panic msg
               | Done (ttl, h', d') => Done (Waiting ttl, h', d')
               end
      end
  | Exited => None
  end.

(** [time.Now().Add(d).Unix()] for a whole number of seconds [d]. *)
Definition addUnix (now d : Z) : Z := now + d.

(** [now1] and [now2] are the two readings of the clock at line 111, in
    seconds. *)
Definition isOld (now1 now2 : Z) (h : host) : bool :=
  lastTime h <? sub_int64 now1 (addUnix now2 (- oldHostDuration)).

Definition isExplicitlyAdded (h : host) : bool := eaFlag h.

(** [close(h.stopCh)] *)
Definition stop (h : host) : outcome host :=
  if stopCh h then Panic "close of closed channel"
  else Done {| hostName := hostName h; ip4 := ip4 h; ip6 := ip6 h;
               lastTime := lastTime h; eaFlag := eaFlag h; ready := ready h;
               stopCh := true |}.

(** The staleness test as the specification words it: the last access is
    more than 30 minutes in the past. *)
Definition stale (now : Z) (h : host) : bool :=
  oldHostDuration <? now - lastTime h.

End Host.

(** ** src/resolver.go *)

Module Registry.
Import Ips DnsClient Host.

(** A [*host]: the record and its goroutine.  A pointer is the index of the
    cell in [heap], which holds every host ever made by [newHost], whether
    the map still refers to it or not. *)
Record cell : Type := { obj : host; goroutine : task }.

Record Resolver : Type :=
  { hosts : gmap string nat;
    heap : list cell;
    dnsClient : DnsClient.dnsClient;
    stopCh : bool;        (* r.stopCh is closed *)
    sweeping : bool }.    (* oldHostsDeleteLoop has not returned *)

Definition New : Resolver :=
  {| hosts := ∅; heap := []; dnsClient := newDnsClient;
     stopCh := false; sweeping := true |}.

Definition withHosts (m : gmap string nat) (r : Resolver) : Resolver :=
  {| hosts := m; heap := heap r; dnsClient := dnsClient r;
     stopCh := stopCh r; sweeping := sweeping r |}.

Definition withHeap (hp : list cell) (r : Resolver) : Resolver :=
  {| hosts := hosts r; heap := hp; dnsClient := dnsClient r;
     stopCh := stopCh r; sweeping := sweeping r |}.

Definition withClient (d : DnsClient.dnsClient) (r : Resolver) : Resolver :=
  {| hosts := hosts r; heap := heap r; dnsClient := d;
     stopCh := stopCh r; sweeping := sweeping r |}.

Definition WithNameservers (E : env) (nameServers : list string) (r : Resolver)
  : Resolver :=
  withClient (setNameServers E nameServers (dnsClient r)) r.

(** The critical section under the write lock shared by AddHost (lines
    65-69) and the two getters (lines 99-104, 127-132): the entry is made
    only if the name is still absent.  Returns the pointer the caller
    holds. *)
Definition create (eaFlag : bool) (hostName : string) (now : Z) (r : Resolver)
  : Resolver * nat :=
  match hosts r !! hostName with
  | Some h => (r, h)
  | None =>
      let h := length (heap r) in
      (withHosts (<[hostName := h]> (hosts r))
         (withHeap (heap r ++ [{| obj := newHost hostName eaFlag now;
                                  goroutine := Starting |}]) r),
       h)
  end.

Definition AddHost (hostName : string) (now : Z) (r : Resolver) : Resolver :=
  match hosts r !! hostName with
  | Some _ => r
  | None => fst (create true hostName now r)
  end.

Definition delHosts (names : list string) (r : Resolver) : Resolver :=
  withHosts (fold_left (fun m h => delete h m) names (hosts r)) r.

Definition DelHost (hostName : string) (r : Resolver) : Resolver :=
  delHosts [hostName] r.

(** [close(r.stopCh)] *)
Definition Stop (r : Resolver) : outcome Resolver :=
  if stopCh r then Panic "close of closed channel"
  else Done {| hosts := hosts r; heap := heap r; dnsClient := dnsClient r;
               stopCh := true; sweeping := sweeping r |}.

Definition setObj (p : nat) (h : host) (hp : list cell) : list cell :=
  match hp !! p with
  | Some c => <[p := {| obj := h; goroutine := goroutine c |}]> hp
  | None => hp
  end.

(** [r.hosts[hostName].stop()] on the heap. *)
Definition stopAt (p : nat) (hp : list cell) : outcome (list cell) :=
  match hp !! p with
  | None => Panic "nil pointer dereference"
  | Some c =>
      match stop (obj c) with
      | Panic msg => Panic msg
      | Done h' => Done (setObj p h' hp)
      end
  end.

Definition emptyHosts (r : Resolver) : outcome Resolver :=
  match fold_left (fun acc kv => match acc with
                                 | Done hp => stopAt (snd kv) hp
                                 | Panic msg => Panic msg
                                 end)
                  (map_to_list (hosts r)) (Done (heap r)) with
  | Panic msg => Panic msg
  | Done hp => Done (withHosts ∅ (withHeap hp r))
  end.

(** Lines 211-218.  [clock name] gives the two readings of the clock that
    [isOld] takes for the host of that name. *)
Definition hostsToDel (clock : string -> Z * Z) (r : Resolver) : list string :=
  fst <$> List.filter
    (fun kv => match heap r !! snd kv with
               | Some c => isOld (fst (clock (fst kv))) (snd (clock (fst kv))) (obj c)
                           && negb (isExplicitlyAdded (obj c))
               | None => false
               end)
    (map_to_list (hosts r)).

(** The case [<-ticker.C] of the loop, lines 210-223, with nothing
    happening between the release of the read lock and the write lock of
    delHosts; [More.sweepBetween] is the case with other goroutines in
    between. *)
Definition sweep (clock : string -> Z * Z) (r : Resolver) : Resolver :=
  let l := hostsToDel clock r in
  if (0 <? Z.of_nat (length l)) then delHosts l r else r.

Inductive wakeR : Type := RStop | RTick.

(** One turn of the select of [oldHostsDeleteLoop]. *)
Definition oldHostsDeleteLoop (clock : string -> Z * Z) (w : wakeR)
    (r : Resolver) : option (outcome Resolver) :=
  if sweeping r then
    match w with
    | RStop =>
        if stopCh r then
          Some match emptyHosts r with
               | Panic msg => Panic msg
               | Done r' => Done {| hosts := hosts r'; heap := heap r';
                                    dnsClient := dnsClient r';
                                    stopCh := stopCh r'; sweeping := false |}
               end
        else None
    | RTick => Some (Done (sweep clock r))
    end
  else None.

(** One step of the goroutine of the host at [p]. *)
Definition stepTask (E : env) (intf : interference) (w : wake) (p : nat)
    (r : Resolver) : option (outcome Resolver) :=
  match heap r !! p with
  | None => None
  | Some c =>
      match reloadIPsLoop E intf w (goroutine c) (obj c) (dnsClient r) with
      | None => None
      | Some (Panic msg) => Some (Panic msg)
      | Some (Done (t, h, d)) =>
          Some (Done (withClient d
                        (withHeap (<[p := {| obj := h; goroutine := t |}]> (heap r)) r)))
      end
  end.

Definition ipStrIdx (ret : option IP * Z) : option IP * Z :=
  match fst ret with
  | None => (None, -1)
  | Some ip => (Some ip, snd ret)
  end.

Inductive family : Type := V4 | V6.

(** Where a caller of GetNextIPWithIdx / GetNextIP6WithIdx stands. *)
Inductive pc : Type :=
  | AtCheck                                   (* before the read lock *)
  | AtCreate                                  (* absent: before the write lock *)
  | AtRead (h : nat)                          (* holds h, before the read *)
  | Returned (h : nat) (ret : option IP * Z).

(** One critical section of the caller.  [now] is the clock it reads. *)
Definition stepGet (f : family) (hostName : string) (now : Z) (p : pc)
    (r : Resolver) : pc * Resolver :=
  match p with
  | AtCheck =>
      match hosts r !! hostName with
      | Some h => (AtRead h, r)
      | None => (AtCreate, r)
      end
  | AtCreate =>
      let '(r', h) := create false hostName now r in (AtRead h, r')
  | AtRead h =>
      match heap r !! h with
      | None => (p, r)
      | Some c =>
          match (match f with
                 | V4 => getNextIP4WithIndex now (obj c)
                 | V6 => getNextIP6WithIndex now (obj c)
                 end) with
          | None => (p, r)
          | Some (ret, h') =>
              (Returned h (ipStrIdx ret), withHeap (setObj h h' (heap r)) r)
          end
      end
  | Returned _ _ => (p, r)
  end.

(** A call with nothing in between: [None] when it blocks on the readiness
    gate. *)
Definition getNext (f : family) (hostName : string) (now : Z) (r : Resolver)
  : option ((option IP * Z) * Resolver) :=
  let '(p1, r1) := stepGet f hostName now AtCheck r in
  let '(p2, r2) := stepGet f hostName now p1 r1 in
  let '(p3, r3) := stepGet f hostName now p2 r2 in
  match p2, p3 with
  | Returned _ ret, _ | _, Returned _ ret => Some (ret, r3)
  | _, _ => None
  end.

Definition GetNextIPWithIdx := getNext V4.
Definition GetNextIP6WithIdx := getNext V6.

(** Two callers A and B of the getters for the same name; each element of
    the schedule says who runs its next critical section, and the clock it
    reads. *)
Fixpoint race (fA fB : family) (hostName : string) (sch : list (bool * Z))
    (a b : pc) (r : Resolver) : pc * pc * Resolver :=
  match sch with
  | [] => (a, b, r)
  | (true, now) :: sch' =>
      let '(a', r') := stepGet fA hostName now a r in
      race fA fB hostName sch' a' b r'
  | (false, now) :: sch' =>
      let '(b', r') := stepGet fB hostName now b r in
      race fA fB hostName sch' a b' r'
  end.

Definition holds (p : pc) : option nat :=
  match p with
  | AtRead h | Returned h _ => Some h
  | _ => None
  end.

(** The heap cells the map refers to exist. *)
Definition wf (r : Resolver) : Prop :=
  forall name p, hosts r !! name = Some p -> (p < length (heap r))%nat.

End Registry.

(** ** Notions the specification uses to state the behaviour *)

Module Spec.
Import Ips DnsClient Host Registry.

(** The TTLs of the records of the queried family in an answer. *)
Definition ttls (q : qtype) (rrs : list RR) : list Z :=
  omap (fun rr => match q, rr with
                  | TypeA, RR_A t _ | TypeAAAA, RR_AAAA t _ => Some t
                  | _, _ => None
                  end) rrs.

(** The minimum TTL seen by a query among its own records; the sentinel
    [MaxUint32] when it saw none. *)
Definition minTtl (q : qtype) (x : exchanged) : Z :=
  match x with
  | Answer rrs => foldr Z.min MaxUint32 (ttls q rrs)
  | ExchangeErr _ => MaxUint32
  end.

(** A minimum TTL that was observed and is above the floor. *)
Definition above (t : Z) : Prop := defaultTtl < t /\ t <> MaxUint32.

(** The TTL selection as the specification summarises it. *)
Definition ttl_as_claimed (t4 t6 ttl : Z) : Prop :=
  (~ above t4 -> ~ above t6 -> ttl = 60)
  /\ (above t4 -> ~ above t6 -> ttl = t4)
  /\ (~ above t4 -> above t6 -> ttl = t6)
  /\ (above t4 -> above t6 -> ttl = Z.min t4 t6)
  /\ 60 <= ttl.

(** The dual query against [nServer] fails. *)
Definition failed (E : env) (host nServer : string) : bool :=
  match r_err (dnsLookupHost E nServer host) with
  | Some _ => true
  | None => false
  end.

(** The result of a lookup that tried the servers [tried]: the one of the
    last server tried. *)
Definition resultOf (E : env) (host : string) (lastr : lookupResult)
    (tried : list string) : lookupResult :=
  match last tried with
  | Some s => dnsLookupHost E s host
  | None => lastr
  end.

(** The number of servers of [tried] whose dual query fails. *)
Definition failures (E : env) (host : string) (tried : list string) : Z :=
  Z.of_nat (length (List.filter (failed E host) tried)).

(** The servers at the [k] positions of the rotation that start at counter
    [c]. *)
Fixpoint rotation (ns : list string) (c : Z) (k : nat) : list string :=
  match k with
  | O => []
  | S k' =>
      match ns !! Z.to_nat (c mod Z.of_nat (length ns)) with
      | Some s => s :: rotation ns (c + 1) k'
      | None => []
      end
  end.

(** A lookup that tried [tried2] begins at the position after the one of
    the server that answered the lookup that tried [tried1]. *)
Definition startsAfter (ns tried1 tried2 : list string) : Prop :=
  exists (i : nat) (s : string),
    ns !! i = Some s /\ last tried1 = Some s
    /\ head tried2 = ns !! ((i + 1) mod length ns)%nat.

(** The registry during a race on [name]: either nobody has made the entry
    yet, or it is the cell [L], the first free one when the race began. *)
Definition during (name : string) (L : nat) (r : Resolver) : Prop :=
  (hosts r !! name = None /\ length (heap r) = L)
  \/ (hosts r !! name = Some L /\ length (heap r) = S L).

(** The entry a caller holds, if any, is the one of the map. *)
Definition sound (name : string) (L : nat) (p : pc) (r : Resolver) : Prop :=
  forall h, holds p = Some h -> h = L /\ hosts r !! name = Some L.

(** The sweep as the specification words it: the names of the entries that
    are implicit and whose last access is more than 30 minutes before
    [now]. *)
Definition evictable (now : Z) (r : Resolver) (name : string) : bool :=
  match hosts r !! name with
  | Some p =>
      match heap r !! p with
      | Some c => stale now (obj c) && negb (isExplicitlyAdded (obj c))
      | None => false
      end
  | None => false
  end.

End Spec.

(** ** Concrete collaborators used to run the code *)

Module Scenario.
Import Ips DnsClient Host Registry.

Definition v4 : IP := [Byte.x5d; Byte.xb8; Byte.xd8; Byte.x22].
Definition v6 : IP :=
  [Byte.x26; Byte.x06; Byte.x28; Byte.x00; Byte.x02; Byte.x20; Byte.x00; Byte.x01;
   Byte.x02; Byte.x48; Byte.x18; Byte.x93; Byte.x25; Byte.xc8; Byte.x19; Byte.x46].

Definition everyone : interleaving :=
  {| seen4 := 1; seen6 := 1; aaaaFirst := false |}.

(** Stands for [net.ParseIP] on the three nameserver literals of the
    scenario; everything else is refused. *)
Definition parse (s : string) : option IP :=
  if String.eqb s "10.0.0.1" then Some [Byte.x0a; Byte.x00; Byte.x00; Byte.x01]
  else if String.eqb s "10.0.0.2" then Some [Byte.x0a; Byte.x00; Byte.x00; Byte.x02]
  else if String.eqb s "10.0.0.3" then Some [Byte.x0a; Byte.x00; Byte.x00; Byte.x03]
  else None.

(** Every server answers one A record and one AAAA record with the given
    TTLs, and both queries have returned when the TTL is selected. *)
Definition answering (ttlA ttlAAAA : Z) : env :=
  {| ParseIP := parse;
     LookupHost := fun _ => ResolveErr "no such host";
     Exchange := fun _ _ q => match q with
                              | TypeA => Answer [RR_A ttlA v4]
                              | TypeAAAA => Answer [RR_AAAA ttlAAAA v6]
                              end;
     Sched := fun _ => everyone |}.

(** The same answers, but neither goroutine has gone through a record when
    the TTL is selected. *)
Definition notYet (ttlA ttlAAAA : Z) : env :=
  {| ParseIP := parse;
     LookupHost := fun _ => ResolveErr "no such host";
     Exchange := Exchange (answering ttlA ttlAAAA);
     Sched := fun _ => {| seen4 := 0; seen6 := 0; aaaaFirst := false |} |}.

(** Only the servers of [good] answer; the others time out. *)
Definition only (good : list string) : env :=
  {| ParseIP := parse;
     LookupHost := fun _ => ResolveErr "no such host";
     Exchange := fun srv _ q =>
       if existsb (fun g => String.eqb srv (g ++ ":53")%string) good then
         match q with
         | TypeA => Answer [RR_A 300 v4]
         | TypeAAAA => Answer [RR_AAAA 300 v6]
         end
       else ExchangeErr ("read udp " ++ srv ++ ": i/o timeout")%string;
     Sched := fun _ => everyone |}.

Definition three : list string := ["10.0.0.1"; "10.0.0.2"; "10.0.0.3"]%string.

(** The other goroutine runs [setNameServers] with no valid entry right
    after the lookup has read the length of the list. *)
Definition emptied (E : env) : interference :=
  fun i d => if Nat.eqb i 0 then setNameServers E [] d else d.

(** A lookup of another host fails against a server, and so increments the
    shared counter (line 87), before turn [k] of the loop of this lookup. *)
Definition bumpedAt (k : nat) : interference :=
  fun i d => if Nat.eqb i k then bump d else d.

(** A host that holds the addresses [l4] and [l6] after its first
    refresh. *)
Definition serving (name : string) (eaFlag : bool) (t : Z) (l4 l6 : list IP) : host :=
  {| hostName := name;
     ip4 := setIpList l4 newIps; ip6 := setIpList l6 newIps;
     lastTime := t; eaFlag := eaFlag; ready := true; Host.stopCh := false |}.

End Scenario.

(** ** The rest of the package *)

Module More.
Import Ips DnsClient Host Registry.

(** src/ips.go, newIpsFromList (lines 23-34). *)
Definition newIpsFromList (E : env) (listIP : list string) : ips :=
  {| ipIdx := 0;
     ipList := fold_left (fun result v => match ParseIP E v with
                                          | Some ip => result ++ [ip]
                                          | None => result
                                          end) listIP [] |}.

(** The address of a record of the queried family. *)
Definition addrOf (q : qtype) (rr : RR) : option IP :=
  match q, rr with
  | TypeA, RR_A _ a | TypeAAAA, RR_AAAA _ a => Some a
  | _, _ => None
  end.

(** An address string of the family [isV6], parsed. *)
Definition parsedAs (E : env) (isV6 : bool) (addr : string) : option IP :=
  if Bool.eqb (containsColon addr) isV6 then ParseIP E addr else None.

(** Interference that leaves the rotation counter alone and never replaces
    a non-empty list of nameservers by an empty one. *)
Definition keepsServing (intf : interference) : Prop :=
  forall (i : nat) (d : DnsClient.dnsClient),
    nsCounter (intf i d) = nsCounter d
    /\ (nameServers d <> [] -> nameServers (intf i d) <> []).

(** The other goroutine stores the list [l] before turn [k] of the loop. *)
Definition reconfiguredAt (E : env) (k : nat) (l : list string) : interference :=
  fun i d => if Nat.eqb i k then setNameServers E l d else d.

(** src/resolver.go, GetIPs (lines 139-149): [None] when the caller is
    blocked on the readiness gate. *)
Definition GetIPs (hostName : string) (r : Resolver) : option (list IP * list IP) :=
  match hosts r !! hostName with
  | None => Some ([], [])
  | Some p =>
      match heap r !! p with
      | None => Some ([], [])
      | Some c => getIPs (obj c)
      end
  end.

(** Stands for [net.ParseIP] on the literals of the examples. *)
Definition parseLit (s : string) : option IP :=
  if String.eqb s "::1" then
    Some [Byte.x00; Byte.x00; Byte.x00; Byte.x00; Byte.x00; Byte.x00; Byte.x00; Byte.x00;
          Byte.x00; Byte.x00; Byte.x00; Byte.x00; Byte.x00; Byte.x00; Byte.x00; Byte.x01]
  else Scenario.parse s.

(** The resolver of the operating system answers [addrs]; no nameserver
    answers. *)
Definition osAnswers (addrs : list string) : env :=
  {| ParseIP := parseLit;
     LookupHost := fun _ => Addrs addrs;
     Exchange := fun srv _ _ => ExchangeErr "connection refused";
     Sched := fun _ => Scenario.everyone |}.

(** The case [<-ticker.C] of oldHostsDeleteLoop with what the other
    goroutines do to the registry between the release of the read lock
    (line 218) and the write lock of delHosts (line 221): the names are
    collected on [r] and deleted from [others r]. *)
Definition sweepBetween (clock : string -> Z * Z) (others : Resolver -> Resolver)
    (r : Resolver) : Resolver :=
  let l := hostsToDel clock r in
  let r1 := others r in
  if (0 <? Z.of_nat (length l)) then delHosts l r1 else r1.

(** What holds of the registry in every state the package can reach: every
    name of the map points to a cell of the heap, whose host has that name
    and an open stop channel. *)
Definition Inv (r : Resolver) : Prop :=
  forall (name : string) (p : nat),
    hosts r !! name = Some p ->
    exists c : cell,
      heap r !! p = Some c /\ hostName (obj c) = name
      /\ Host.stopCh (obj c) = false.

End More.

(** ** The polling resolver (second part of src/host.go, lines 128-313) *)

Module Legacy.
Import DnsClient.

(** [int] addition. *)
Definition add_int64 (a b : Z) : Z :=
  (a + b + 2 ^ 63) mod 2 ^ 64 - 2 ^ 63.

(** [sort.Strings]: the strings in increasing byte order. *)
Fixpoint insertSorted (s : string) (l : list string) : list string :=
  match l with
  | [] => [s]
  | x :: l' => if String.leb s x then s :: l else x :: insertSorted s l'
  end.

Definition sortStrings (l : list string) : list string :=
  foldr insertSorted [] l.

Record ips : Type :=
  { idx : Z;
    ip4 : list string;
    ip6 : list string;
    ipv4 : list IP;
    ipv6 : list IP }.

Record svc : Type := { hosts : gmap string ips }.

Definition New : svc := {| hosts := ∅ |}.

(** Lines 170-179; the goroutine of lines 181-196 calls [updateHostIPs]
    with each answer of [net.LookupHost]. *)
Definition AddHost (host : string) (s : svc) : svc :=
  match hosts s !! host with
  | Some _ => s
  | None =>
      {| hosts := <[host := {| idx := 0; ip4 := []; ip6 := [];
                               ipv4 := []; ipv6 := [] |}]> (hosts s) |}
  end.

Definition DelHost (host : string) (s : svc) : svc :=
  {| hosts := delete host (hosts s) |}.

(** What the goroutine of the host does to the record of the host at point
    [k] of a call of GetNextIP: updateHostIPs writes the fields of the record
    with no lock held (lines 301-308), so its writes fall anywhere in the
    body of GetNextIP, which holds the lock of the map only. *)
Definition writes : Type := nat -> ips -> ips.

Definition noWrites : writes := fun _ r => r.

(** The write of line 301, [r.ip4 = ipsv4], at point [k]. *)
Definition storesIp4 (k : nat) (l : list string) : writes :=
  fun i r =>
    if Nat.eqb i k then
      {| idx := idx r; ip4 := l; ip6 := ip6 r; ipv4 := ipv4 r; ipv6 := ipv6 r |}
    else r.

(** Lines 205-223.  The record is read for its length, then for [r.idx];
    [r.idx] is stored; then [r.ip4[r.idx]] is read.  The writes of the other
    goroutine come before the second, the third and the fourth of these
    accesses. *)
Definition GetNextIP (w : writes) (host : string) (s : svc)
  : outcome (string * svc) :=
  match hosts s !! host with
  | Some r =>
      let itemsCount := Z.of_nat (length (ip4 r)) in
      if itemsCount =? 0 then Done (""%string, s)
      else
        let r := w 0%nat r in
        let i := Z.rem (add_int64 (idx r) 1) itemsCount in
        let r := w 1%nat r in
        let r := {| idx := i; ip4 := ip4 r; ip6 := ip6 r;
                    ipv4 := ipv4 r; ipv6 := ipv6 r |} in
        let r := w 2%nat r in
        let s' := {| hosts := <[host := r]> (hosts s) |} in
        if idx r <? 0 then Panic "index out of range"
        else match ip4 r !! Z.to_nat (idx r) with
             | Some a => Done (a, s')
             | None => Panic "index out of range"
             end
  | None => Done (""%string, s)
  end.

Definition GetIPs (host : string) (s : svc) : list IP * list IP :=
  match hosts s !! host with
  | None => ([], [])
  | Some r => (ipv4 r, ipv6 r)
  end.

Definition GetIPsStr (host : string) (s : svc) : list string * list string :=
  match hosts s !! host with
  | None => ([], [])
  | Some r => (ip4 r, ip6 r)
  end.

(** The four slices of lines 276-281. *)
Record slices : Type :=
  { ipsv4 : list string; ipsv6 : list string;
    s_ipv4 : list IP; s_ipv6 : list IP }.

(** One turn of the loop of lines 283-297. *)
Definition addParsed (E : env) (acc : slices) (ip : string) : slices :=
  match ParseIP E ip with
  | None => acc
  | Some ipp =>
      if containsColon ip then
        {| ipsv4 := ipsv4 acc; ipsv6 := ipsv6 acc ++ [ip];
           s_ipv4 := s_ipv4 acc; s_ipv6 := s_ipv6 acc ++ [ipp] |}
      else
        {| ipsv4 := ipsv4 acc ++ [ip]; ipsv6 := ipsv6 acc;
           s_ipv4 := s_ipv4 acc ++ [ipp]; s_ipv6 := s_ipv6 acc |}
  end.

(** Lines 266-313: [false] when the host is not in the map any more. *)
Definition updateHostIPs (E : env) (host : string) (sip : list string) (s : svc)
  : bool * svc :=
  match hosts s !! host with
  | None => (false, s)
  | Some r =>
      let acc := fold_left (addParsed E) sip
                   {| ipsv4 := []; ipsv6 := []; s_ipv4 := []; s_ipv6 := [] |} in
      let sorted4 := sortStrings (ipsv4 acc) in
      let sorted6 := sortStrings (ipsv6 acc) in
      let i := if Z.of_nat (length sorted4) - 1 <? idx r then 0 else idx r in
      (true,
       {| hosts := <[host := {| idx := i; ip4 := sorted4; ip6 := sorted6;
                                ipv4 := s_ipv4 acc; ipv6 := s_ipv6 acc |}]>
                     (hosts s) |})
  end.

(** The rotation index of every host is an index of its list of IPv4
    strings, or 0 when the list is empty; the list, a Go slice, has a
    length that fits an [int]. *)
Definition inRange (s : svc) : Prop :=
  forall host r, hosts s !! host = Some r ->
    0 <= idx r /\ idx r <= Z.max 0 (Z.of_nat (length (ip4 r)) - 1)
    /\ Z.of_nat (length (ip4 r)) < 2 ^ 63.

(** The order of [sort.Strings]. *)
Definition lebs (a b : string) : Prop := String.leb a b = true.

(** The strings of a family that parse, in the order of the answer. *)
Definition validOf (E : env) (isV6 : bool) (sip : list string) : list string :=
  List.filter (fun ip => match ParseIP E ip with
                         | Some _ => Bool.eqb (containsColon ip) isV6
                         | None => false
                         end) sip.

End Legacy.

(** * Properties *)

Lemma wrap64_small z : 0 <= z < 2 ^ 64 -> wrap64 z = z.
Proof. intros H. unfold wrap64. apply Z.mod_small. exact H. Qed.

Lemma int_of_uint64_small z : 0 <= z < 2 ^ 63 -> int_of_uint64 z = z.
Proof.
  intros H. unfold int_of_uint64. rewrite wrap64_small by (pow2; lia).
  destruct (Z.ltb_spec z (2 ^ 63)); [reflexivity | lia].
Qed.

Module IpsFacts.
Import Ips.

Lemma getNext_empty c : getNextIPWithIndex {| ipIdx := c; ipList := [] |}
                        = ((None, 0), {| ipIdx := c; ipList := [] |}).
Proof. reflexivity. Qed.

Lemma getNext3 c a b d :
  getNextIPWithIndex {| ipIdx := c; ipList := [a; b; d] |}
  = (([a; b; d] !! Z.to_nat (c mod 3), c mod 3),
     {| ipIdx := wrap64 (c + 1); ipList := [a; b; d] |}).
Proof. reflexivity. Qed.

(** C8 (as amended): a 3-address set whose rotation index is at most
    2^64 - 4, so that four reads do not wrap the 64-bit index, returns each
    of the three addresses exactly once in three consecutive reads, and the
    fourth read returns the first one again. *)
Theorem getNext_cycle3 (c : Z) (a b d : IP) :
  0 <= c <= 2 ^ 64 - 4 ->
  cycles3 {| ipIdx := c; ipList := [a; b; d] |}.
Proof.
  intros Hc. unfold cycles3. cbn [reads].
  rewrite getNext3, (wrap64_small (c + 1)) by (pow2; lia).
  rewrite getNext3, (wrap64_small (c + 1 + 1)) by (pow2; lia).
  rewrite getNext3, (wrap64_small (c + 1 + 1 + 1)) by (pow2; lia).
  rewrite getNext3. cbn [fst ipList].
  replace (c + 1 + 1 + 1) with (c + 3) by lia.
  replace (c + 1 + 1) with (c + 2) by lia.
  assert (Hk : c mod 3 = 0 \/ c mod 3 = 1 \/ c mod 3 = 2)
    by (pose proof (Z.mod_pos_bound c 3); lia).
  assert (H1 : (c + 1) mod 3 = (c mod 3 + 1) mod 3)
    by (rewrite Zplus_mod; reflexivity).
  assert (H2 : (c + 2) mod 3 = (c mod 3 + 2) mod 3)
    by (rewrite Zplus_mod; reflexivity).
  assert (H3 : (c + 3) mod 3 = c mod 3)
    by (rewrite Zplus_mod, Z.mod_same, Z.add_0_r, Z.mod_mod by lia; reflexivity).
  rewrite H1, H2, H3.
  destruct Hk as [-> | [-> | ->]]; cbn; split; try reflexivity.
  - symmetry. apply (Permutation_cons_append [(Some b, 1); (Some d, 2)]).
  - apply (Permutation_cons_append [(Some a, 0); (Some b, 1)]).
Qed.

Lemma getNext_cycle3_witness :
  cycles3 {| ipIdx := 0; ipList := [[Byte.x0a]; [Byte.x0b]; [Byte.x0c]] |}.
Proof. apply getNext_cycle3. pow2; lia. Defined.

(** C8 as stated fails when the index wraps: at index 2^64 - 1 the first
    two reads both return the first address. *)
Lemma getNext_cycle3_wraps :
  ~ cycles3 {| ipIdx := 2 ^ 64 - 1;
               ipList := [[Byte.x0a]; [Byte.x0b]; [Byte.x0c]] |}.
Proof.
  unfold cycles3. vm_compute reads. cbn. intros [Hp _].
  assert (Hin : (Some [Byte.x0c], 2)
                ∈ [(Some [Byte.x0a], 0); (Some [Byte.x0a], 0); (Some [Byte.x0b], 1)])
    by (rewrite Hp; do 2 right; left).
  repeat (apply elem_of_cons in Hin as [Hin | Hin]; [discriminate |]).
  inversion Hin.
Qed.

End IpsFacts.

Module DnsClientFacts.
Import Ips DnsClient Spec Scenario.

(** *** The TTL of a dual query *)

Lemma foldr_min_shift (t a : Z) (l : list Z) :
  foldr Z.min (Z.min t a) l = Z.min t (foldr Z.min a l).
Proof.
  induction l as [| x l IH]; simpl; [reflexivity |].
  rewrite IH. lia.
Qed.

Lemma scan_from_min (q : qtype) (rrs : list RR) :
  forall acc, snd (fold_left (collect q) rrs acc) = foldr Z.min (snd acc) (ttls q rrs).
Proof.
  induction rrs as [| rr rrs IH]; intros acc; [reflexivity |].
  cbn [fold_left]. rewrite IH.
  destruct q, rr; cbn; try reflexivity.
  all: rewrite <- foldr_min_shift; f_equal;
    destruct (Z.ltb_spec ttl (snd acc)); lia.
Qed.

(** The fold of the goroutine computes the minimum TTL of its records. *)
Lemma finished_minTtl (q : qtype) (x : exchanged) :
  snd (finished q x) = minTtl q x.
Proof.
  destruct x as [rrs | e]; [| reflexivity].
  unfold finished, scan. rewrite scan_from_min. reflexivity.
Qed.

Lemma minTtl_le_max (q : qtype) (x : exchanged) : minTtl q x <= MaxUint32.
Proof.
  destruct x as [rrs | e]; simpl; [| lia].
  induction (ttls q rrs) as [| t l IH]; simpl; lia.
Qed.

Lemma selectTtl_floor (ttl4 ttl6 : Z) : defaultTtl <= selectTtl ttl4 ttl6.
Proof.
  unfold selectTtl, defaultTtl.
  destruct (Z.ltb_spec 60 ttl4), (Z.ltb_spec 60 ttl6),
    (Z.eqb_spec ttl4 MaxUint32), (Z.eqb_spec ttl6 MaxUint32),
    (Z.ltb_spec ttl6 ttl4); cbn; lia.
Qed.

(** Whatever the goroutines have done when the TTL is selected, the TTL
    returned is at least the floor. *)
Lemma dnsLookupHost_floor (E : env) (nServer host : string) :
  defaultTtl <= r_ttl (dnsLookupHost E nServer host).
Proof. apply selectTtl_floor. Qed.

(** The selection on a schedule the code does not enforce: if both queries
    of the attempt happen to have returned before the TTL is selected, the
    TTL is computed from the two minimum TTLs with floor 60: the smaller one
    when both are observed above the floor; the A minimum when it alone is;
    the AAAA minimum when it alone is above the floor and the A query saw no
    record, but 60 when the A query saw a record at or below the floor; 60
    when neither is; never below 60. *)
Theorem dnsLookupHost_ttl (E : env) (nServer host : string) :
  joined E nServer host ->
  let t4 := minTtl TypeA (Exchange E (nServer ++ ":53")%string host TypeA) in
  let t6 := minTtl TypeAAAA (Exchange E (nServer ++ ":53")%string host TypeAAAA) in
  let ttl := r_ttl (dnsLookupHost E nServer host) in
  60 <= ttl
  /\ (above t4 -> above t6 -> ttl = Z.min t4 t6)
  /\ (above t4 -> ~ above t6 -> ttl = t4)
  /\ (~ above t4 -> above t6 -> t4 = MaxUint32 -> ttl = t6)
  /\ (~ above t4 -> above t6 -> t4 <> MaxUint32 -> ttl = 60)
  /\ (~ above t4 -> ~ above t6 -> ttl = 60).
Proof.
  intros [J4 J6] t4 t6 ttl.
  assert (Httl : ttl = selectTtl t4 t6).
  { subst ttl t4 t6. unfold dnsLookupHost; cbn [r_ttl].
    rewrite J4, J6, !finished_minTtl. reflexivity. }
  pose proof (minTtl_le_max TypeA (Exchange E (nServer ++ ":53")%string host TypeA)) as M4.
  pose proof (minTtl_le_max TypeAAAA (Exchange E (nServer ++ ":53")%string host TypeAAAA)) as M6.
  fold t4 in M4. fold t6 in M6.
  clearbody t4 t6 ttl. subst ttl.
  unfold above, selectTtl, defaultTtl.
  destruct (Z.ltb_spec 60 t4), (Z.ltb_spec 60 t6),
    (Z.eqb_spec t4 MaxUint32), (Z.eqb_spec t6 MaxUint32),
    (Z.ltb_spec t6 t4); cbn; repeat split; intros; lia.
Qed.

Lemma dnsLookupHost_ttl_witness :
  joined (answering 120 90) "10.0.0.1" "example.org"
  /\ r_ttl (dnsLookupHost (answering 120 90) "10.0.0.1" "example.org") = 90.
Proof.
  assert (J : joined (answering 120 90) "10.0.0.1" "example.org")
    by (split; reflexivity).
  split; [exact J |].
  destruct (dnsLookupHost_ttl (answering 120 90) "10.0.0.1" "example.org" J)
    as (_ & Hboth & _).
  rewrite Hboth; [reflexivity | |]; split; vm_compute; congruence.
Defined.

(** Even with both queries returned, an A minimum of 40 and an AAAA minimum
    of 200 give 60 and not 200: the guard of line 142 compares the AAAA
    minimum with the raw A minimum. *)
Lemma dnsLookupHost_ttl_40_200 :
  let E := answering 40 200 in
  let x4 := Exchange E "10.0.0.1:53" "example.org" TypeA in
  let x6 := Exchange E "10.0.0.1:53" "example.org" TypeAAAA in
  joined E "10.0.0.1" "example.org"
  /\ minTtl TypeA x4 = 40 /\ minTtl TypeAAAA x6 = 200
  /\ r_ttl (dnsLookupHost E "10.0.0.1" "example.org") = 60
  /\ ~ ttl_as_claimed (minTtl TypeA x4) (minTtl TypeAAAA x6)
                      (r_ttl (dnsLookupHost E "10.0.0.1" "example.org")).
Proof.
  cbv zeta. split; [split; reflexivity |].
  repeat (split; [reflexivity |]).
  change (~ ttl_as_claimed 40 200 60).
  intros (_ & _ & H & _).
  assert (60 = 200); [| lia].
  apply H; unfold above, defaultTtl, MaxUint32; pow2; lia.
Qed.

(** The selection of lines 138-144 runs before the join of line 146: when
    it runs before either goroutine has gone through a record, the TTL is
    the floor whatever the answers hold. *)
Lemma dnsLookupHost_ttl_unseen (E : env) (nServer host : string) :
  seen4 (Sched E nServer) = O -> seen6 (Sched E nServer) = O ->
  r_ttl (dnsLookupHost E nServer host) = 60.
Proof.
  intros H4 H6. unfold dnsLookupHost; cbn [r_ttl]. rewrite H4, H6.
  destruct (Exchange E (nServer ++ ":53")%string host TypeA),
           (Exchange E (nServer ++ ":53")%string host TypeAAAA); reflexivity.
Qed.

(** C2 fails on the code: a server answers an A record of TTL 120 and an
    AAAA record of TTL 90, both above the floor, so that the TTL should be
    90; the TTL is selected before the two goroutines are joined, here
    before either has gone through its answer, and the attempt, which
    succeeds with both addresses, returns the floor of 60. *)
Theorem dnsLookupHost_ttl_before_join :
  let E := notYet 120 90 in
  let x4 := Exchange E "10.0.0.1:53" "example.org" TypeA in
  let x6 := Exchange E "10.0.0.1:53" "example.org" TypeAAAA in
  minTtl TypeA x4 = 120 /\ minTtl TypeAAAA x6 = 90
  /\ ~ joined E "10.0.0.1" "example.org"
  /\ r_err (dnsLookupHost E "10.0.0.1" "example.org") = None
  /\ r_ip4 (dnsLookupHost E "10.0.0.1" "example.org") = [v4]
  /\ r_ip6 (dnsLookupHost E "10.0.0.1" "example.org") = [v6]
  /\ r_ttl (dnsLookupHost E "10.0.0.1" "example.org") = 60
  /\ ~ ttl_as_claimed (minTtl TypeA x4) (minTtl TypeAAAA x6)
                      (r_ttl (dnsLookupHost E "10.0.0.1" "example.org")).
Proof.
  cbv zeta. split; [reflexivity |]. split; [reflexivity |].
  split; [intros [H _]; vm_compute in H; discriminate |].
  repeat (split; [reflexivity |]).
  change (~ ttl_as_claimed 120 90 60).
  intros (_ & _ & _ & H & _).
  assert (60 = Z.min 120 90); [| lia].
  apply H; unfold above, defaultTtl, MaxUint32; pow2; lia.
Qed.

(** *** The resolver of the operating system *)

(** C5: with no nameserver configured and the resolver of the operating
    system failing, lookupHost returns two empty address lists, the default
    TTL of 60 seconds and a nil error. *)
Theorem lookupHost_os_failure (E : env) (intf : interference) (host : string)
    (c : Z) (e : error) :
  LookupHost E host = ResolveErr e ->
  lookupHost E intf host {| nsCounter := c; nameServers := [] |}
  = Done ({| r_ip4 := []; r_ip6 := []; r_ttl := 60; r_err := None |},
          {| nsCounter := c; nameServers := [] |}, []).
Proof. intros H. unfold lookupHost; cbn. rewrite H. reflexivity. Qed.

Lemma lookupHost_os_failure_witness :
  lookupHost (only []) quiet "example.org" newDnsClient
  = Done ({| r_ip4 := []; r_ip6 := []; r_ttl := 60; r_err := None |},
          newDnsClient, []).
Proof.
  exact (lookupHost_os_failure (only []) quiet "example.org" 0 "no such host"
           eq_refl).
Defined.

(** *** Failover across the nameservers *)

Lemma filter_all {A : Type} (f : A -> bool) (l : list A) :
  (forall (j : nat) (x : A), l !! j = Some x -> f x = true) ->
  List.filter f l = l.
Proof.
  induction l as [| a l IH]; intros H; [reflexivity |].
  cbn [List.filter]. rewrite (H 0%nat a eq_refl). f_equal.
  apply IH. intros j x Hj. apply (H (S j)). exact Hj.
Qed.

Section Failover.
Variables (E : env) (host : string) (ns : list string).
Hypothesis nonempty : ns <> [].

Let n : Z := Z.of_nat (length ns).

Lemma n_pos : 0 < n.
Proof. subst n. destruct ns; [congruence | simpl length; lia]. Qed.

Lemma server_at (c : Z) :
  exists s, ns !! Z.to_nat (c mod n) = Some s.
Proof.
  apply lookup_lt_is_Some_2.
  pose proof n_pos. pose proof (Z.mod_pos_bound c n). subst n. lia.
Qed.

(** One turn of the loop with no interference: the server at the counter
    is tried; the loop stops there if it answers, and goes on with the
    counter incremented if it fails. *)
Lemma attempts_turn (k i : nat) (c : Z) (lastr : lookupResult)
    (tried0 : list string) (s : string) :
  0 <= c < 2 ^ 63 - 1 ->
  ns !! Z.to_nat (c mod n) = Some s ->
  attempts E quiet host (S k) i {| nsCounter := c; nameServers := ns |}
           lastr tried0
  = if failed E host s
    then attempts E quiet host k (S i)
                  {| nsCounter := c + 1; nameServers := ns |}
                  (dnsLookupHost E s host) (tried0 ++ [s])
    else Done (dnsLookupHost E s host,
               {| nsCounter := c; nameServers := ns |}, tried0 ++ [s]).
Proof.
  intros Hc Hs. pose proof n_pos as Hn.
  cbn [attempts]. unfold quiet. cbn [nameServers nsCounter]. fold n.
  destruct (Z.eqb_spec n 0) as [? | _]; [lia |].
  rewrite int_of_uint64_small by (pow2; lia).
  rewrite Z.rem_mod_nonneg by lia.
  pose proof (Z.mod_pos_bound c n Hn).
  destruct (Z.ltb_spec (c mod n) 0) as [? | _]; [lia |].
  rewrite Hs. unfold failed, bump; cbn [nameServers nsCounter].
  destruct (r_err (dnsLookupHost E s host)); [| reflexivity].
  rewrite wrap64_small by (pow2; lia). reflexivity.
Qed.

(** The loop with no interference: it tries the servers in the order of
    the rotation, stops at the first that answers, and has incremented the
    counter once for each server that failed. *)
Lemma attempts_quiet (k : nat) :
  forall (i : nat) (c : Z) (lastr : lookupResult) (tried0 : list string),
    0 <= c -> c + Z.of_nat k < 2 ^ 63 ->
    exists tried : list string,
      attempts E quiet host k i {| nsCounter := c; nameServers := ns |}
               lastr tried0
      = Done (resultOf E host lastr tried,
              {| nsCounter := c + failures E host tried; nameServers := ns |},
              tried0 ++ tried)
      /\ tried = rotation ns c (length tried)
      /\ (length tried <= k)%nat
      /\ (k <> O -> tried <> [])
      /\ (forall j s, (S j < length tried)%nat -> tried !! j = Some s ->
                      failed E host s = true)
      /\ (forall s, last tried = Some s -> failed E host s = true ->
                    length tried = k)
      /\ (forall s, last tried = Some s -> failed E host s = false ->
                    ns !! Z.to_nat ((c + failures E host tried) mod n) = Some s
                    /\ failures E host tried < Z.of_nat (length tried)).
Proof.
  induction k as [| k IH]; intros i c lastr tried0 Hc Hk.
  - exists []. cbn. unfold failures; cbn.
    rewrite Z.add_0_r, app_nil_r.
    split; [reflexivity |]. split; [reflexivity |]. split; [lia |].
    split; [congruence |]. split; [intros; lia |].
    split; intros; discriminate.
  - destruct (server_at c) as [s Hs].
    rewrite (attempts_turn k i c lastr tried0 s) by (pow2; lia || exact Hs).
    destruct (failed E host s) eqn:Hf.
    + destruct (IH (S i) (c + 1) (dnsLookupHost E s host) (tried0 ++ [s]))
        as (tried & Hrun & Hrot & Hlen & Hne & Hbefore & Hlast & Hok);
        [lia | lia |].
      exists (s :: tried). rewrite Hrun.
      split; [| split; [| split; [| split; [| split; [| split]]]]].
      * f_equal. f_equal; [f_equal |].
        -- unfold resultOf. rewrite last_cons.
           destruct (last tried); reflexivity.
        -- unfold failures; cbn [List.filter]. rewrite Hf.
           cbn [length]. f_equal. lia.
        -- rewrite <- app_assoc. reflexivity.
      * cbn [length rotation]. fold n. rewrite Hs. f_equal. exact Hrot.
      * cbn [length]. lia.
      * discriminate.
      * intros [| j] s' Hj Hl; cbn in Hl.
        -- congruence.
        -- apply (Hbefore j); [cbn [length] in Hj; lia | exact Hl].
      * intros s' Hl Hf'. rewrite last_cons in Hl. cbn [length].
        destruct (last tried) as [s'' |] eqn:El.
        -- f_equal. apply (Hlast s''); congruence.
        -- apply last_None in El. subst tried.
           destruct k; [reflexivity | exfalso; apply Hne; congruence].
      * intros s' Hl Hf'. rewrite last_cons in Hl.
        destruct (last tried) as [s'' |] eqn:El; [| congruence].
        destruct (Hok s'') as [Hat Hlt]; [reflexivity | congruence |].
        unfold failures in *; cbn [List.filter]. rewrite Hf. cbn [length].
        split; [| lia].
        replace (c + Z.of_nat (S (length (List.filter (failed E host) tried))))
          with (c + 1 + Z.of_nat (length (List.filter (failed E host) tried)))
          by lia.
        congruence.
    + exists [s]. unfold resultOf, failures; cbn [last List.filter length].
      rewrite Hf. cbn [length]. rewrite Z.add_0_r.
      split; [reflexivity |].
      split; [cbn [rotation]; fold n; rewrite Hs; reflexivity |].
      split; [lia |].
      split; [discriminate |].
      split; [intros j s' Hj; lia |].
      split; intros s' Hl Hf'; injection Hl as <-; [congruence |].
      cbn [length]. split; [exact Hs | lia].
Qed.

(** A lookup with no interference on a non-empty list. *)
Lemma lookupHost_quiet (c : Z) :
  0 <= c -> c + n < 2 ^ 63 ->
  exists (tried : list string) (s : string),
    lookupHost E quiet host {| nsCounter := c; nameServers := ns |}
    = Done (dnsLookupHost E s host,
            {| nsCounter := c + failures E host tried; nameServers := ns |},
            tried)
    /\ last tried = Some s
    /\ tried = rotation ns c (length tried)
    /\ (length tried <= length ns)%nat
    /\ (forall j s', (S j < length tried)%nat -> tried !! j = Some s' ->
                     failed E host s' = true)
    /\ (failed E host s = false ->
        lookupHost E quiet host
          {| nsCounter := c + failures E host tried; nameServers := ns |}
        = Done (dnsLookupHost E s host,
                {| nsCounter := c + failures E host tried; nameServers := ns |},
                [s]))
    /\ (failed E host s = true ->
        length tried = length ns
        /\ failures E host tried = n
        /\ r_err (dnsLookupHost E s host) <> None).
Proof.
  intros Hc Hn. pose proof n_pos as Hpos.
  assert (Hlk : forall d, nameServers d = ns ->
            lookupHost E quiet host d
            = attempts E quiet host (length ns) 0 d
                {| r_ip4 := []; r_ip6 := []; r_ttl := 0; r_err := None |} []).
  { intros d Hd. unfold lookupHost. rewrite Hd.
    destruct ns; [congruence | reflexivity]. }
  destruct (attempts_quiet (length ns) 0%nat c
              {| r_ip4 := []; r_ip6 := []; r_ttl := 0; r_err := None |} [])
    as (tried & Hrun & Hrot & Hlen & Hne & Hbefore & Hlast & Hok);
    [lia | fold n; lia |].
  destruct (last tried) as [s |] eqn:El.
  2:{ apply last_None in El. exfalso. apply Hne; [| exact El].
      destruct ns; [congruence | discriminate]. }
  exists tried, s.
  split.
  { rewrite Hlk by reflexivity. rewrite Hrun.
    unfold resultOf. rewrite El. reflexivity. }
  split; [exact El |]. split; [exact Hrot |]. split; [exact Hlen |].
  split; [exact Hbefore |]. split.
  - intros Hf. destruct (Hok s eq_refl Hf) as [Hat Hlt].
    rewrite Hlk by reflexivity.
    assert (Hf0 : 0 <= failures E host tried) by (unfold failures; lia).
    assert (Hk : exists k, length ns = S k)
      by (destruct ns; [congruence | eexists; reflexivity]).
    destruct Hk as [k Ek]. rewrite Ek.
    rewrite (attempts_turn k 0%nat _ _ [] s); [rewrite Hf; reflexivity | | exact Hat].
    pose proof (length_filter (failed E host) tried) as Hfl.
    unfold failures in *. subst n. pow2. lia.
  - intros Hf. pose proof (Hlast s eq_refl Hf) as Hl.
    split; [exact Hl |]. split.
    + unfold failures. subst n. rewrite <- Hl. f_equal.
      rewrite filter_all; [reflexivity |].
      intros j s' Hj.
      destruct (decide (S j < length tried)%nat) as [Hlt | Hge].
      * apply (Hbefore j s' Hlt Hj).
      * rewrite last_lookup in El.
        pose proof (lookup_lt_Some _ _ _ Hj) as Hjl.
        replace (pred (length tried)) with j in El by lia.
        congruence.
    + unfold failed in Hf. destruct (r_err (dnsLookupHost E s host)); congruence.
Qed.

End Failover.

(** C4 (as amended): a lookup during which no other goroutine touches the
    client (no reconfiguration, and no other lookup incrementing the shared
    counter), tries the servers in the
    order of the rotation from the counter, stops at the first that answers,
    and increments the counter once per failed server and not on success, so
    the following lookup begins at the index of the server that answered,
    not at the position after it; if every server fails the result is the one
    of the last server tried, error included.  With [10.0.0.1, 10.0.0.2,
    10.0.0.3], only 10.0.0.2 answering and a rotation that starts at index 0,
    the lookup succeeds at its second attempt and every later lookup tries
    10.0.0.2 first. *)
Theorem lookupHost_failover :
  (forall (E : env) (host : string) (ns : list string) (c : Z),
      ns <> [] -> 0 <= c -> c + Z.of_nat (length ns) < 2 ^ 63 ->
      exists (tried : list string) (s : string),
        lookupHost E quiet host {| nsCounter := c; nameServers := ns |}
        = Done (dnsLookupHost E s host,
                {| nsCounter := c + failures E host tried; nameServers := ns |},
                tried)
        /\ last tried = Some s
        /\ tried = rotation ns c (length tried)
        /\ (length tried <= length ns)%nat
        /\ (forall j s', (S j < length tried)%nat -> tried !! j = Some s' ->
                         failed E host s' = true)
        /\ (failed E host s = false ->
            lookupHost E quiet host
              {| nsCounter := c + failures E host tried; nameServers := ns |}
            = Done (dnsLookupHost E s host,
                    {| nsCounter := c + failures E host tried; nameServers := ns |},
                    [s]))
        /\ (failed E host s = true ->
            length tried = length ns
            /\ failures E host tried = Z.of_nat (length ns)
            /\ r_err (dnsLookupHost E s host) <> None))
  /\ (forall (E : env) (host : string) (c : Z),
         0 <= c < 2 ^ 63 - 3 -> c mod 3 = 0 ->
         failed E host "10.0.0.1" = true ->
         failed E host "10.0.0.2" = false ->
         failed E host "10.0.0.3" = true ->
         lookupHost E quiet host {| nsCounter := c; nameServers := three |}
         = Done (dnsLookupHost E "10.0.0.2" host,
                 {| nsCounter := c + 1; nameServers := three |},
                 ["10.0.0.1"; "10.0.0.2"]%string)
         /\ lookupHost E quiet host {| nsCounter := c + 1; nameServers := three |}
            = Done (dnsLookupHost E "10.0.0.2" host,
                    {| nsCounter := c + 1; nameServers := three |},
                    ["10.0.0.2"]%string)).
Proof.
  split.
  - intros E host ns c Hne Hc Hn. apply lookupHost_quiet; assumption.
  - intros E host c Hc Hm F1 F2 F3.
    assert (Hne : three <> []) by discriminate.
    assert (Hm1 : (c + 1) mod 3 = 1)
      by (rewrite Zplus_mod, Hm; reflexivity).
    unfold lookupHost. cbn [nameServers three length Nat.eqb].
    split.
    + rewrite (attempts_turn E host three Hne 2 0 c _ [] "10.0.0.1");
        [| pow2; lia | change (Z.of_nat (length three)) with 3; rewrite Hm; reflexivity].
      rewrite F1.
      rewrite (attempts_turn E host three Hne 1 1 (c + 1) _ _ "10.0.0.2");
        [| pow2; lia | change (Z.of_nat (length three)) with 3; rewrite Hm1; reflexivity].
      rewrite F2. reflexivity.
    + rewrite (attempts_turn E host three Hne 2 0 (c + 1) _ [] "10.0.0.2");
        [| pow2; lia | change (Z.of_nat (length three)) with 3; rewrite Hm1; reflexivity].
      rewrite F2. reflexivity.
Qed.

Lemma lookupHost_failover_witness :
  (exists (tried : list string) (s : string),
      lookupHost (only ["10.0.0.2"%string]) quiet "example.org"
                 {| nsCounter := 0; nameServers := three |}
      = Done (dnsLookupHost (only ["10.0.0.2"%string]) s "example.org",
              {| nsCounter := 0 + failures (only ["10.0.0.2"%string]) "example.org" tried;
                 nameServers := three |}, tried)
      /\ last tried = Some s)
  /\ lookupHost (only ["10.0.0.2"%string]) quiet "example.org"
                {| nsCounter := 0; nameServers := three |}
     = Done (dnsLookupHost (only ["10.0.0.2"%string]) "10.0.0.2" "example.org",
             {| nsCounter := 0 + 1; nameServers := three |},
             ["10.0.0.1"; "10.0.0.2"]%string).
Proof.
  split.
  - destruct (proj1 lookupHost_failover (only ["10.0.0.2"%string]) "example.org"
                three 0) as (tried & s & H1 & H2 & _);
      [discriminate | lia | cbn; pow2; lia |].
    exists tried, s. split; assumption.
  - apply (proj2 lookupHost_failover (only ["10.0.0.2"%string]) "example.org" 0);
      [pow2; lia | reflexivity | reflexivity | reflexivity | reflexivity].
Defined.

(** C4 as stated fails, twice.  After the lookup that 10.0.0.2 (index 1)
    answered, the next lookup begins at 10.0.0.2 again, not at index 2.  And
    the counter is shared: when another lookup increments it between the
    first and the second turn, the lookup that started at index 0 tries
    10.0.0.1, 10.0.0.3 and 10.0.0.1 again, and fails after its three
    attempts although 10.0.0.2 answers. *)
Lemma lookupHost_next_begins_at_success :
  let E := only ["10.0.0.2"%string] in
  (exists r1 d1 r2 d2,
      lookupHost E quiet "example.org" {| nsCounter := 0; nameServers := three |}
      = Done (r1, d1, ["10.0.0.1"; "10.0.0.2"]%string)
      /\ r_err r1 = None
      /\ lookupHost E quiet "example.org" d1 = Done (r2, d2, ["10.0.0.2"%string])
      /\ ~ startsAfter three ["10.0.0.1"; "10.0.0.2"]%string ["10.0.0.2"%string])
  /\ (exists r3 e,
         lookupHost E (bumpedAt 1) "example.org"
                    {| nsCounter := 0; nameServers := three |}
         = Done (r3, {| nsCounter := 4; nameServers := three |},
                 ["10.0.0.1"; "10.0.0.3"; "10.0.0.1"]%string)
         /\ r_err r3 = Some e).
Proof.
  cbv zeta. split.
  - do 4 eexists.
    split; [vm_compute; reflexivity |].
    split; [reflexivity |].
    split; [vm_compute; reflexivity |].
    intros (i & s & Hi & Hl & Hh).
    cbn in Hl. injection Hl as <-.
    destruct i as [| [| [| i]]]; cbn in Hi, Hh; discriminate.
  - do 2 eexists. split; [vm_compute; reflexivity | reflexivity].
Qed.

(** *** Reconfiguration during a lookup *)

(** When the list is emptied after the lookup has read its length, the first
    turn of the loop divides by zero. *)
Lemma lookupHost_emptied (E : env) (host : string) (d : dnsClient) :
  nameServers d <> [] ->
  lookupHost E (emptied E) host d = Panic "integer divide by zero".
Proof.
  intros Hne. unfold lookupHost.
  destruct (nameServers d) as [| s l] eqn:Ed; [congruence |].
  reflexivity.
Qed.

(** C6 fails on the code: with one nameserver configured, a lookup during
    which the list is replaced by the empty one panics. *)
Theorem lookupHost_reconfigured_panics :
  let E := only ["10.0.0.1"%string] in
  let d := setNameServers E ["10.0.0.1"%string] newDnsClient in
  nameServers d = ["10.0.0.1"%string]
  /\ nameServers (setNameServers E [] d) = []
  /\ (exists r d', lookupHost E quiet "example.org" d
                   = Done (r, d', ["10.0.0.1"%string]))
  /\ lookupHost E (emptied E) "example.org" d = Panic "integer divide by zero".
Proof.
  cbv zeta. split; [reflexivity |]. split; [reflexivity |].
  split; [do 2 eexists; vm_compute; reflexivity |].
  apply lookupHost_emptied. discriminate.
Qed.

End DnsClientFacts.

Module HostFacts.
Import Ips DnsClient Host Spec Scenario.

(** C7: when lookupHost returns an error, reloadIPs leaves the host, and so
    both address sets, as they were, and returns the retry interval of 10
    seconds; the goroutine goes on waiting (it does not return), and what a
    reader gets from the host is what it got before the refresh. *)
Theorem reloadIPs_failure (E : env) (intf : interference) (h : host)
    (d d' : dnsClient) (r : lookupResult) (tried : list string) (e : error) :
  lookupHost E intf (hostName h) d = Done (r, d', tried) ->
  r_err r = Some e ->
  reloadIPs E intf h d = Done (10, h, d')
  /\ (forall t, reloadIPsLoop E intf TtlCh (Waiting t) h d
                = Some (Done (Waiting 10, h, d')))
  /\ (forall w, reloadIPsLoop E intf w Starting h d
                = Some (Done (Waiting 10, setReady h, d')))
  /\ (forall h' ttl d'', reloadIPs E intf h d = Done (ttl, h', d'') ->
        ip4 h' = ip4 h /\ ip6 h' = ip6 h /\ stopCh h' = stopCh h
        /\ (forall now, getNextIP4WithIndex now h' = getNextIP4WithIndex now h)
        /\ (forall now, getNextIP6WithIndex now h' = getNextIP6WithIndex now h)
        /\ getIPs h' = getIPs h).
Proof.
  intros Hl He.
  assert (Hr : reloadIPs E intf h d = Done (10, h, d')).
  { unfold reloadIPs. rewrite Hl, He. reflexivity. }
  split; [exact Hr |].
  split; [intros t; cbn [reloadIPsLoop]; rewrite Hr; reflexivity |].
  split; [intros w; cbn [reloadIPsLoop]; rewrite Hr; reflexivity |].
  - intros h' ttl d'' Hr'. rewrite Hr in Hr'.
    injection Hr' as _ <- _. repeat split; reflexivity.
Qed.

Lemma reloadIPs_failure_witness :
  reloadIPs (only []) quiet (serving "example.org" false 100 [v4] [v6])
            {| nsCounter := 0; nameServers := three |}
  = Done (10, serving "example.org" false 100 [v4] [v6],
          {| nsCounter := 3; nameServers := three |}).
Proof.
  refine (proj1 (reloadIPs_failure (only []) quiet
                   (serving "example.org" false 100 [v4] [v6])
                   {| nsCounter := 0; nameServers := three |}
                   {| nsCounter := 3; nameServers := three |}
                   (dnsLookupHost (only []) "10.0.0.3" "example.org")
                   three "read udp 10.0.0.3:53: i/o timeout" _ _)).
  - vm_compute. reflexivity.
  - vm_compute. reflexivity.
Defined.

(** C10: with no nameserver configured, a refresh replaces both address
    sets by what the resolver of the operating system gave and returns the
    default TTL of 60 seconds; when that resolver fails, the two sets are
    replaced by empty lists, the addresses held before are gone, and the
    next refresh is still due after 60 seconds and not after the retry
    interval. *)
Theorem reloadIPs_no_nameservers (E : env) (intf : interference) (h : host)
    (c : Z) :
  let d := {| nsCounter := c; nameServers := [] |} in
  let ips := match LookupHost E (hostName h) with
             | Addrs addrs => fold_left (partition1 E) addrs (fun _ => [])
             | ResolveErr _ => fun _ => []
             end in
  let h' := withIp6 (setIpList (ips true) (ip6 h))
                    (withIp4 (setIpList (ips false) (ip4 h)) h) in
  reloadIPs E intf h d = Done (60, h', d)
  /\ (forall t, reloadIPsLoop E intf TtlCh (Waiting t) h d
                = Some (Done (Waiting 60, h', d)))
  /\ (forall w, reloadIPsLoop E intf w Starting h d
                = Some (Done (Waiting 60, setReady h', d)))
  /\ 60 <> retryIntervalSec
  /\ (forall e, LookupHost E (hostName h) = ResolveErr e ->
        getList (ip4 h') = [] /\ getList (ip6 h') = []
        /\ (ready h = true ->
            forall now, fst <$> getNextIP4WithIndex now h' = Some (None, 0)
                        /\ fst <$> getNextIP6WithIndex now h' = Some (None, 0))).
Proof.
  intros d ips h'.
  assert (Hr : reloadIPs E intf h d = Done (60, h', d)).
  { unfold reloadIPs, lookupHost. cbn [d nameServers length Nat.eqb].
    subst h' ips. destruct (LookupHost E (hostName h)); reflexivity. }
  split; [exact Hr |].
  split; [intros t; cbn [reloadIPsLoop]; rewrite Hr; reflexivity |].
  split; [intros w; cbn [reloadIPsLoop]; rewrite Hr; reflexivity |].
  - split; [discriminate |].
    intros e He. subst h' ips. rewrite He. cbn.
    split; [reflexivity |]. split; [reflexivity |].
    intros Hready now.
    unfold getNextIP4WithIndex, getNextIP6WithIndex. cbn. rewrite Hready.
    split; reflexivity.
Qed.

Lemma reloadIPs_no_nameservers_witness :
  reloadIPs (only []) quiet (serving "example.org" false 100 [v4] [v6])
            newDnsClient
  = Done (60, serving "example.org" false 100 [] [], newDnsClient)
  /\ getList (ip4 (serving "example.org" false 100 [] [])) = [].
Proof.
  pose proof (reloadIPs_no_nameservers (only []) quiet
                (serving "example.org" false 100 [v4] [v6]) 0) as H.
  cbv zeta in H. destruct H as (H1 & _ & _ & _ & H4).
  split; [exact H1 |].
  exact (proj1 (H4 "no such host"%string eq_refl)).
Defined.

End HostFacts.

Module RegistryFacts.
Import Ips DnsClient Host Registry Spec Scenario.

(** *** Creation *)

Lemma create_absent (eaFlag : bool) (name : string) (now : Z) (r : Resolver) :
  hosts r !! name = None ->
  create eaFlag name now r
  = (withHosts (<[name := length (heap r)]> (hosts r))
       (withHeap (heap r ++ [{| obj := newHost name eaFlag now;
                                goroutine := Starting |}]) r),
     length (heap r)).
Proof. intros H. unfold create. rewrite H. reflexivity. Qed.

Lemma create_present (eaFlag : bool) (name : string) (now : Z) (r : Resolver)
    (p : nat) :
  hosts r !! name = Some p -> create eaFlag name now r = (r, p).
Proof. intros H. unfold create. rewrite H. reflexivity. Qed.

Lemma New_absent (name : string) : hosts New !! name = None.
Proof. apply lookup_empty. Qed.

(** *** The eviction sweep *)

(** With a clock that does not go back between its two readings, the
    right-hand side of the comparison of [isOld] is the window of 1800
    seconds less the time between the readings, not an instant 30 minutes
    back. *)
Lemma isOld_threshold (now1 now2 : Z) (h : host) :
  0 <= now1 <= now2 -> now2 < 2 ^ 62 ->
  isOld now1 now2 h = (lastTime h <? 1800 - (now2 - now1)).
Proof.
  intros H1 H2. unfold isOld, sub_int64, addUnix, oldHostDuration.
  f_equal. pow2.
  replace (now1 - (now2 + - (30 * 60)) + 9223372036854775808)
    with (1800 - (now2 - now1) + 9223372036854775808) by lia.
  rewrite Z.mod_small by lia. lia.
Qed.

Lemma isOld_never (now1 now2 : Z) (h : host) :
  0 <= now1 <= now2 -> now2 < 2 ^ 62 -> 1800 <= lastTime h ->
  isOld now1 now2 h = false.
Proof.
  intros H1 H2 H3. rewrite isOld_threshold by assumption.
  apply Z.ltb_ge. lia.
Qed.

Lemma filter_none {A : Type} (f : A -> bool) (l : list A) :
  (forall x, x ∈ l -> f x = false) -> List.filter f l = [].
Proof.
  induction l as [| a l IH]; intros H; [reflexivity |].
  cbn [List.filter]. rewrite (H a) by left.
  apply IH. intros x Hx. apply H. right. exact Hx.
Qed.

(** No host touched after 00:30 on 1 January 1970 is ever collected. *)
Lemma sweep_never_evicts (clock : string -> Z * Z) (r : Resolver) :
  (forall name, 0 <= fst (clock name) <= snd (clock name)
                /\ snd (clock name) < 2 ^ 62) ->
  (forall name p c, hosts r !! name = Some p -> heap r !! p = Some c ->
                    1800 <= lastTime (obj c)) ->
  hostsToDel clock r = [] /\ sweep clock r = r.
Proof.
  intros Hclock Hlast.
  assert (Hd : hostsToDel clock r = []).
  { unfold hostsToDel. rewrite filter_none; [reflexivity |].
    intros [name p] Hin. apply elem_of_map_to_list in Hin. cbn [fst snd].
    destruct (heap r !! p) as [c |] eqn:Hc; [| reflexivity].
    destruct (Hclock name) as [H1 H2].
    rewrite (isOld_never _ _ (obj c) H1 H2 (Hlast name p c Hin Hc)).
    reflexivity. }
  split; [exact Hd |]. unfold sweep. rewrite Hd. reflexivity.
Qed.

(** An explicitly added host is never collected, whatever the clock. *)
Lemma sweep_keeps_explicit (clock : string -> Z * Z) (r : Resolver)
    (name : string) (p : nat) (c : cell) :
  hosts r !! name = Some p -> heap r !! p = Some c ->
  isExplicitlyAdded (obj c) = true ->
  name ∉ hostsToDel clock r.
Proof.
  intros Hn Hp He Hin. unfold hostsToDel in Hin.
  apply list_elem_of_fmap in Hin as ([name' p'] & -> & Hin).
  apply list_elem_of_In, filter_In in Hin as [Hin Hf].
  apply list_elem_of_In, elem_of_map_to_list in Hin.
  cbn [fst snd] in *. rewrite Hn in Hin. injection Hin as <-.
  rewrite Hp, He in Hf. rewrite andb_false_r in Hf. discriminate.
Qed.

(** C1 fails on the code: an implicitly created host last touched at
    1700000000 is stale one hour later, and the sweep run then leaves it in
    the map. *)
Theorem sweep_keeps_stale_implicit :
  let r := fst (create false "example.org" 1700000000 New) in
  let now := 1700003600 in
  hosts r !! "example.org"%string = Some 0%nat
  /\ evictable now r "example.org" = true
  /\ hostsToDel (fun _ => (now, now)) r = []
  /\ sweep (fun _ => (now, now)) r = r
  /\ hosts (sweep (fun _ => (now, now)) r) !! "example.org"%string = Some 0%nat.
Proof.
  cbv zeta.
  rewrite (create_absent false "example.org" 1700000000 New (New_absent _)).
  cbn [fst].
  set (r := withHosts _ _).
  assert (Hh : hosts r !! "example.org"%string = Some 0%nat)
    by (subst r; cbn; apply lookup_insert_eq).
  assert (Hs : hostsToDel (fun _ => (1700003600, 1700003600)) r = []
               /\ sweep (fun _ => (1700003600, 1700003600)) r = r).
  { apply sweep_never_evicts.
    - intros _. cbn [fst snd]. pow2. lia.
    - intros name p c Hn Hp. subst r. cbn in Hn, Hp.
      apply lookup_insert_Some in Hn as [[_ <-] | [_ Hn]];
        [| rewrite lookup_empty in Hn; discriminate].
      cbn in Hp. injection Hp as <-. cbn. lia. }
  destruct Hs as [Hs1 Hs2].
  split; [exact Hh |]. split.
  - unfold evictable. rewrite Hh. reflexivity.
  - split; [exact Hs1 |]. split; [exact Hs2 |]. rewrite Hs2. exact Hh.
Qed.

(** *** Unregistering *)

Lemma delHosts_heap (names : list string) (r : Resolver) :
  heap (delHosts names r) = heap r.
Proof. reflexivity. Qed.

Lemma DelHost_lookup (name name' : string) (r : Resolver) :
  hosts (DelHost name r) !! name'
  = if decide (name = name') then None else hosts r !! name'.
Proof. unfold DelHost, delHosts; cbn. apply lookup_delete. Qed.

Lemma DelHost_absent (name : string) (r : Resolver) :
  hosts r !! name = None -> DelHost name r = r.
Proof.
  intros H. unfold DelHost, delHosts, withHosts; cbn.
  rewrite delete_id by exact H. destruct r; reflexivity.
Qed.

(** The stop case of the select of a host cannot fire while its channel is
    open. *)
Lemma stepTask_stop_blocked (E : env) (intf : interference) (p : nat)
    (r : Resolver) (c : cell) (t : Z) :
  heap r !! p = Some c -> goroutine c = Waiting t ->
  Host.stopCh (obj c) = false ->
  stepTask E intf StopCh p r = None.
Proof.
  intros Hp Hg Hs. unfold stepTask. rewrite Hp, Hg. cbn. rewrite Hs.
  reflexivity.
Qed.

(** Removing a host leaves every cell of the heap, and so every stop
    channel and every goroutine, as it was. *)
Lemma DelHost_does_not_stop (name : string) (r : Resolver) (p : nat) :
  hosts r !! name = Some p ->
  hosts (DelHost name r) !! name = None
  /\ heap (DelHost name r) !! p = heap r !! p.
Proof.
  intros _. split; [| reflexivity].
  rewrite DelHost_lookup. destruct (decide (name = name)); congruence.
Qed.

(** C3 fails on the code: after AddHost and the first refresh, DelHost
    removes the name from the map but the stop channel of the host stays
    open, so the stop case of its goroutine cannot fire and the goroutine
    goes on refreshing; emptyHosts, on the same registry, does close the
    channel and the goroutine returns. *)
Theorem DelHost_leaves_task_running :
  let E := only [] in
  let r0 := AddHost "example.org" 1700000000 New in
  exists (r1 : Resolver) (c : cell),
    stepTask E quiet TtlCh 0 r0 = Some (Done r1)
    /\ hosts r1 !! "example.org"%string = Some 0%nat
    /\ hosts (DelHost "example.org" r1) !! "example.org"%string = None
    /\ heap (DelHost "example.org" r1) !! 0%nat = Some c
    /\ goroutine c = Waiting 60
    /\ Host.stopCh (obj c) = false
    /\ stepTask E quiet StopCh 0 (DelHost "example.org" r1) = None
    /\ (exists r2, stepTask E quiet TtlCh 0 (DelHost "example.org" r1)
                   = Some (Done r2)
                   /\ goroutine <$> heap r2 !! 0%nat = Some (Waiting 60))
    /\ (exists r3 r4, emptyHosts r1 = Done r3
                      /\ stepTask E quiet StopCh 0 r3 = Some (Done r4)
                      /\ goroutine <$> heap r4 !! 0%nat = Some Exited).
Proof.
  cbv zeta. unfold AddHost. rewrite New_absent.
  rewrite (create_absent true "example.org" 1700000000 New (New_absent _)).
  cbn [fst].
  eexists. eexists.
  split; [vm_compute; reflexivity |].
  split; [vm_compute; reflexivity |].
  split; [vm_compute; reflexivity |].
  split; [vm_compute; reflexivity |].
  split; [reflexivity |].
  split; [reflexivity |].
  split; [vm_compute; reflexivity |].
  split; [eexists; split; vm_compute; reflexivity |].
  eexists. eexists.
  split; [vm_compute; reflexivity |].
  split; vm_compute; reflexivity.
Qed.

(** *** One entry per name *)

Lemma AddHost_absent (name : string) (now : Z) (r : Resolver) :
  hosts r !! name = None ->
  hosts (AddHost name now r) !! name = Some (length (heap r))
  /\ heap (AddHost name now r)
     = heap r ++ [{| obj := newHost name true now; goroutine := Starting |}]
  /\ (forall name', name' <> name ->
        hosts (AddHost name now r) !! name' = hosts r !! name').
Proof.
  intros H. unfold AddHost. rewrite H, (create_absent _ _ _ _ H). cbn.
  split; [apply lookup_insert_eq |]. split; [reflexivity |].
  intros name' Hne. apply lookup_insert_ne. congruence.
Qed.

Lemma AddHost_present (name : string) (now : Z) (r : Resolver) (p : nat) :
  hosts r !! name = Some p -> AddHost name now r = r.
Proof. intros H. unfold AddHost. rewrite H. reflexivity. Qed.

Lemma AddHost_idempotent (name : string) (now1 now2 : Z) (r : Resolver) :
  AddHost name now2 (AddHost name now1 r) = AddHost name now1 r.
Proof.
  destruct (hosts r !! name) as [p |] eqn:H.
  - rewrite (AddHost_present name now1 r p H).
    apply (AddHost_present name now2 r p H).
  - destruct (AddHost_absent name now1 r H) as [H1 _].
    apply (AddHost_present _ _ _ _ H1).
Qed.

Lemma setObj_length (p : nat) (h : host) (hp : list cell) :
  length (setObj p h hp) = length hp.
Proof.
  unfold setObj. destruct (hp !! p); [apply length_insert | reflexivity].
Qed.

Section Race.
Variables (name : string) (L : nat).

Lemma stepGet_during (f : family) (now : Z) (p p' : pc) (r r' : Resolver) :
  stepGet f name now p r = (p', r') ->
  during name L r -> sound name L p r ->
  during name L r' /\ sound name L p' r'
  /\ (hosts r !! name = Some L -> hosts r' !! name = Some L).
Proof.
  intros Hstep Hd Hp. destruct p as [| | h | h ret]; cbn in Hstep.
  - assert (Hr : r' = r) by (destruct (hosts r !! name); congruence).
    subst r'. split; [exact Hd |]. split; [| auto].
    intros h Hh. destruct (hosts r !! name) as [h0 |] eqn:Hn.
    + injection Hstep as <-. cbn in Hh. injection Hh as <-.
      destruct Hd as [[Hd _] | [Hd _]]; [congruence |].
      split; congruence.
    + injection Hstep as <-. discriminate.
  - destruct (hosts r !! name) as [h |] eqn:Hn.
    + rewrite (create_present _ _ _ _ _ Hn) in Hstep.
      injection Hstep as <- <-. split; [exact Hd |].
      split; [| intros; congruence].
      intros h' Hh. cbn in Hh. injection Hh as <-.
      destruct Hd as [[Hd _] | [Hd _]]; [congruence |].
      split; congruence.
    + rewrite (create_absent _ _ _ _ Hn) in Hstep.
      injection Hstep as <- <-.
      destruct Hd as [[_ Hl] | [Hd _]]; [| congruence].
      assert (Hnew : <[name := length (heap r)]> (hosts r) !! name = Some L)
        by (rewrite lookup_insert_eq; congruence).
      split; [| split].
      * right. cbn. split; [exact Hnew |].
        rewrite length_app. cbn. lia.
      * intros h' Hh. cbn in Hh. injection Hh as <-.
        split; [exact Hl | exact Hnew].
      * intros _. exact Hnew.
  - destruct (heap r !! h) as [c |] eqn:Hc.
    2:{ injection Hstep as <- <-. auto. }
    destruct (match f with
              | V4 => getNextIP4WithIndex now (obj c)
              | V6 => getNextIP6WithIndex now (obj c)
              end) as [[ret h'] |].
    2:{ injection Hstep as <- <-. auto. }
    injection Hstep as <- <-.
    split; [| split].
    + unfold during in *. cbn. rewrite setObj_length. exact Hd.
    + intros h0 Hh. cbn in Hh. injection Hh as <-. apply (Hp h). reflexivity.
    + auto.
  - injection Hstep as <- <-. auto.
Qed.

Lemma sound_stable (p : pc) (r r' : Resolver) :
  (hosts r !! name = Some L -> hosts r' !! name = Some L) ->
  sound name L p r -> sound name L p r'.
Proof.
  unfold sound. intros Hk Hp h Hh. destruct (Hp h Hh) as [-> Hn]. split; [reflexivity | auto].
Qed.

Lemma race_during (fA fB : family) (sch : list (bool * Z)) :
  forall (a b : pc) (r : Resolver),
    during name L r -> sound name L a r -> sound name L b r ->
    let '(a', b', r') := race fA fB name sch a b r in
    during name L r' /\ sound name L a' r' /\ sound name L b' r'.
Proof.
  induction sch as [| [who now] sch IH]; intros a b r Hd Ha Hb.
  - cbn. auto.
  - destruct who; cbn [race].
    + destruct (stepGet fA name now a r) as [a1 r1] eqn:Hs.
      destruct (stepGet_during fA now a a1 r r1 Hs Hd Ha) as (Hd1 & Ha1 & Hk).
      apply IH; [exact Hd1 | exact Ha1 | exact (sound_stable b r r1 Hk Hb)].
    + destruct (stepGet fB name now b r) as [b1 r1] eqn:Hs.
      destruct (stepGet_during fB now b b1 r r1 Hs Hd Hb) as (Hd1 & Hb1 & Hk).
      apply IH; [exact Hd1 | exact (sound_stable a r r1 Hk Ha) | exact Hb1].
Qed.

End Race.

(** C9: the map holds at most one entry per name and creation is
    idempotent.  For a name that is absent, AddHost makes one entry and one
    goroutine, and a second AddHost changes nothing; two callers of the
    getters that race on the name, under every schedule of their critical
    sections, make at most one host, and the entries they hold are the same
    one, the one of the map. *)
Theorem one_entry_per_name (r : Resolver) (name : string) :
  hosts r !! name = None ->
  (forall now1 now2,
      hosts (AddHost name now1 r) !! name = Some (length (heap r))
      /\ length (heap (AddHost name now1 r)) = S (length (heap r))
      /\ AddHost name now2 (AddHost name now1 r) = AddHost name now1 r)
  /\ (forall (fA fB : family) (sch : list (bool * Z)),
         let '(a, b, r') := race fA fB name sch AtCheck AtCheck r in
         (length (heap r') <= S (length (heap r)))%nat
         /\ (forall ha hb, holds a = Some ha -> holds b = Some hb ->
               ha = hb /\ hosts r' !! name = Some ha
               /\ length (heap r') = S (length (heap r)))).
Proof.
  intros Habs. split.
  - intros now1 now2.
    destruct (AddHost_absent name now1 r Habs) as (H1 & H2 & _).
    split; [exact H1 |]. split.
    + rewrite H2, length_app. cbn. lia.
    + apply AddHost_idempotent.
  - intros fA fB sch.
    pose proof (race_during name (length (heap r)) fA fB sch AtCheck AtCheck r) as H.
    unfold during, sound in H.
    destruct (race fA fB name sch AtCheck AtCheck r) as [[a b] r'].
    destruct H as (Hd & Ha & Hb).
    + left. split; [exact Habs | reflexivity].
    + intros h Hh. discriminate.
    + intros h Hh. discriminate.
    + split.
      * destruct Hd as [[_ ->] | [_ ->]]; lia.
      * intros ha hb Hha Hhb.
        destruct (Ha ha Hha) as [-> Hn]. destruct (Hb hb Hhb) as [-> _].
        split; [reflexivity |]. split; [exact Hn |].
        destruct Hd as [[Hd _] | [_ Hd]]; [congruence | exact Hd].
Qed.

Lemma one_entry_per_name_witness :
  (let '(a, b, r') :=
     race V4 V6 "example.org" [(true, 1); (false, 2); (true, 3); (false, 4)]
          AtCheck AtCheck New in
   a = AtRead 0 /\ b = AtRead 0 /\ length (heap r') = 1%nat)
  /\ length (heap (AddHost "example.org" 2 (AddHost "example.org" 1 New))) = 1%nat.
Proof.
  destruct (one_entry_per_name New "example.org" (New_absent _)) as [HA HR].
  split.
  - specialize (HR V4 V6 [(true, 1); (false, 2); (true, 3); (false, 4)]).
    destruct (race V4 V6 "example.org" [(true, 1); (false, 2); (true, 3); (false, 4)]
                   AtCheck AtCheck New) as [[a b] r'] eqn:Hrun.
    vm_compute in Hrun. injection Hrun as <- <- <-.
    repeat split.
  - destruct (HA 1 2) as (_ & Hlen & Hidem). rewrite Hidem. exact Hlen.
Defined.

End RegistryFacts.

(** * Further properties of the address set *)

Module IpsMore.
Import Ips.

Lemma getNext_nonempty (i : ips) :
  ipList i <> [] ->
  exists ip : IP,
    getNextIPWithIndex i
    = ((Some ip, ipIdx i mod Z.of_nat (length (ipList i))),
       {| ipIdx := wrap64 (ipIdx i + 1); ipList := ipList i |})
    /\ ipList i !! Z.to_nat (ipIdx i mod Z.of_nat (length (ipList i))) = Some ip.
Proof.
  intros H.
  assert (Hlen : 0 < Z.of_nat (length (ipList i)))
    by (destruct (ipList i); [congruence | cbn [length]; lia]).
  pose proof (Z.mod_pos_bound (ipIdx i) _ Hlen) as Hb.
  destruct (lookup_lt_is_Some_2 (ipList i)
              (Z.to_nat (ipIdx i mod Z.of_nat (length (ipList i)))))
    as [ip Hip]; [lia |].
  exists ip. unfold getNextIPWithIndex.
  destruct (Z.eqb_spec (Z.of_nat (length (ipList i))) 0) as [? | _]; [lia |].
  rewrite Hip. auto.
Qed.

(** A read of a non-empty set is always in bounds, whatever the rotation
    index: it returns the element at the index taken modulo the current
    length and advances the index by one; a read of an empty set returns
    the nil address with index 0 and leaves the set as it is. *)
Theorem getNext_in_bounds (i : ips) :
  (ipList i = [] -> getNextIPWithIndex i = ((None, 0), i))
  /\ (ipList i <> [] ->
      exists ip : IP,
        getNextIPWithIndex i
        = ((Some ip, ipIdx i mod Z.of_nat (length (ipList i))),
           {| ipIdx := wrap64 (ipIdx i + 1); ipList := ipList i |})
        /\ 0 <= ipIdx i mod Z.of_nat (length (ipList i)) < Z.of_nat (length (ipList i))
        /\ ipList i !! Z.to_nat (ipIdx i mod Z.of_nat (length (ipList i))) = Some ip).
Proof.
  split.
  - intros H. unfold getNextIPWithIndex. rewrite H. reflexivity.
  - intros H. destruct (getNext_nonempty i H) as (ip & Hg & Hip).
    exists ip. split; [exact Hg |]. split; [| exact Hip].
    apply Z.mod_pos_bound.
    destruct (ipList i); [congruence | cbn [length]; lia].
Qed.

Lemma getNext_in_bounds_witness :
  exists ip : IP,
    getNextIPWithIndex {| ipIdx := 7; ipList := [[Byte.x0a]; [Byte.x0b]] |}
    = ((Some ip, 1), {| ipIdx := 8; ipList := [[Byte.x0a]; [Byte.x0b]] |}).
Proof.
  destruct (proj2 (getNext_in_bounds {| ipIdx := 7; ipList := [[Byte.x0a]; [Byte.x0b]] |}))
    as (ip & H & _); [discriminate |].
  exists ip. exact H.
Defined.

Lemma reads_lookup (n : nat) :
  forall i : ips,
    ipList i <> [] -> 0 <= ipIdx i < 2 ^ 64 ->
    ipIdx i + Z.of_nat n <= 2 ^ 64 ->
    length (fst (reads n i)) = n
    /\ snd (reads n i)
       = {| ipIdx := wrap64 (ipIdx i + Z.of_nat n); ipList := ipList i |}
    /\ forall j : nat, (j < n)%nat ->
         fst (reads n i) !! j
         = Some (ipList i !! Z.to_nat ((ipIdx i + Z.of_nat j)
                                        mod Z.of_nat (length (ipList i))),
                 (ipIdx i + Z.of_nat j) mod Z.of_nat (length (ipList i))).
Proof.
  induction n as [| n IH]; intros i Hne H0 Hn.
  - cbn. rewrite Z.add_0_r, wrap64_small by exact H0.
    split; [reflexivity |]. split; [destruct i; reflexivity |]. intros j Hj. lia.
  - cbn [reads].
    destruct (getNext_nonempty i Hne) as (ip & Hg & Hip).
    rewrite Hg.
    destruct n as [| n].
    + cbn [reads fst snd length]. split; [reflexivity |].
      split; [reflexivity |].
      intros [| j] Hlt; [| lia]. cbn. rewrite Z.add_0_r, Hip. reflexivity.
    + rewrite (wrap64_small (ipIdx i + 1)) by (pow2; lia).
      set (i' := {| ipIdx := ipIdx i + 1; ipList := ipList i |}).
      destruct (IH i') as (Hl & Hs & Hj);
        [exact Hne | cbn; pow2; lia | cbn; lia |].
      destruct (reads (S n) i') as [rs i''] eqn:Hr. cbn [fst snd] in *.
      split; [cbn [length]; lia |]. split.
      * rewrite Hs. cbn [ipIdx ipList i']. f_equal. f_equal. lia.
      * intros [| j] Hlt.
        -- cbn. rewrite Z.add_0_r, Hip. reflexivity.
        -- cbn [lookup list_lookup]. rewrite Hj by lia. cbn [ipIdx ipList i'].
           replace (ipIdx i + 1 + Z.of_nat j) with (ipIdx i + Z.of_nat (S j)) by lia.
           reflexivity.
Qed.

(** As many consecutive reads as the set has addresses, with no wrap of the
    64-bit index on the way, return the list rotated to the position of the
    index: every address exactly once. *)
Theorem reads_full_cycle (i : ips) :
  ipList i <> [] -> 0 <= ipIdx i ->
  ipIdx i + Z.of_nat (length (ipList i)) <= 2 ^ 64 ->
  (fst (reads (length (ipList i)) i)).*1
  = Some <$> rotate (Z.to_nat (ipIdx i mod Z.of_nat (length (ipList i)))) (ipList i)
  /\ (fst (reads (length (ipList i)) i)).*1 ≡ₚ Some <$> ipList i
  /\ snd (reads (length (ipList i)) i)
     = {| ipIdx := wrap64 (ipIdx i + Z.of_nat (length (ipList i)));
          ipList := ipList i |}.
Proof.
  intros Hne H0 Hn.
  assert (Hlen : 0 < Z.of_nat (length (ipList i)))
    by (destruct (ipList i); [congruence | cbn [length]; lia]).
  destruct (reads_lookup (length (ipList i)) i Hne) as (Hl & Hs & Hj);
    [lia | exact Hn |].
  assert (Heq : (fst (reads (length (ipList i)) i)).*1
                = Some <$> rotate (Z.to_nat (ipIdx i mod Z.of_nat (length (ipList i))))
                                  (ipList i)).
  { apply list_eq. intros j. rewrite !list_lookup_fmap.
    destruct (decide (j < length (ipList i))%nat) as [Hlt | Hge].
    - rewrite (Hj j Hlt). cbn [fmap option_fmap option_map fst].
      rewrite lookup_rotate_r by exact Hlt.
      unfold rotate_nat_add.
      rewrite Z2Nat.id by (apply Z.mod_pos_bound; exact Hlen).
      rewrite Zplus_mod_idemp_l.
      destruct (lookup_lt_is_Some_2 (ipList i)
                  (Z.to_nat ((ipIdx i + Z.of_nat j) mod Z.of_nat (length (ipList i)))))
        as [x Hx].
      { pose proof (Z.mod_pos_bound (ipIdx i + Z.of_nat j) _ Hlen). lia. }
      rewrite Hx. reflexivity.
    - rewrite !lookup_ge_None_2; [reflexivity | rewrite length_rotate; lia | lia]. }
  split; [exact Heq |]. split; [| exact Hs].
  rewrite Heq. apply fmap_Permutation. unfold rotate.
  rewrite Permutation_app_comm, take_drop. reflexivity.
Qed.

Lemma reads_full_cycle_witness :
  (fst (reads 3 {| ipIdx := 7; ipList := [[Byte.x0a]; [Byte.x0b]; [Byte.x0c]] |})).*1
  ≡ₚ [Some [Byte.x0a]; Some [Byte.x0b]; Some [Byte.x0c]].
Proof.
  refine (proj1 (proj2 (reads_full_cycle
            {| ipIdx := 7; ipList := [[Byte.x0a]; [Byte.x0b]; [Byte.x0c]] |} _ _ _)));
    [discriminate | cbn; lia | cbn; pow2; lia].
Defined.

End IpsMore.

(** * Further properties of the nameserver client *)

Module DnsClientMore.
Import Ips DnsClient Spec Scenario More.

(** ** Configuration *)

Lemma filter_sublist {A : Type} (f : A -> bool) (l : list A) :
  sublist (List.filter f l) l.
Proof.
  induction l as [| a l IH]; cbn [List.filter]; [constructor |].
  destruct (f a); [apply sublist_skip | apply sublist_cons]; exact IH.
Qed.

(** parseNameServers keeps exactly the entries that parse as an IP address,
    each as often as it occurs and in their order, and drops the others: a
    list of valid entries comes back as it is, duplicates included, an
    invalid entry alone gives the empty list, and the result for a list in
    two parts is the results for the parts, one after the other.  So the
    result is a sublist of the input, holds the valid entries of the input
    and no other, and is left as it is by a second pass. *)
Theorem parseNameServers_valid (E : env) (l : list string) :
  sublist (parseNameServers E l) l
  /\ (forall s, s ∈ parseNameServers E l <-> s ∈ l /\ is_Some (ParseIP E s))
  /\ parseNameServers E (parseNameServers E l) = parseNameServers E l
  /\ ((forall s, s ∈ l -> is_Some (ParseIP E s)) -> parseNameServers E l = l)
  /\ (forall s, ParseIP E s = None -> parseNameServers E [s] = [])
  /\ (forall l', parseNameServers E (l ++ l')
                 = parseNameServers E l ++ parseNameServers E l').
Proof.
  split; [apply filter_sublist |]. split.
  { intros s. unfold parseNameServers.
    rewrite !list_elem_of_In, filter_In.
    destruct (ParseIP E s) as [ip |].
    + split; [intros [H _]; split; [exact H | eexists; reflexivity] | intros [H _]; auto].
    + split; [intros [_ H]; discriminate | intros [_ [x H]]; discriminate]. }
  split.
  { unfold parseNameServers.
    induction l as [| a l IH]; [reflexivity |]. cbn [List.filter].
    destruct (ParseIP E a) eqn:Ha; [| exact IH].
    cbn [List.filter]. rewrite Ha, IH. reflexivity. }
  split.
  { unfold parseNameServers. induction l as [| a l IH]; intros Hall; [reflexivity |].
    cbn [List.filter]. destruct (Hall a) as [ip Hip]; [left |]. rewrite Hip.
    f_equal. apply IH. intros s Hs. apply Hall. right. exact Hs. }
  split.
  { intros s Hs. unfold parseNameServers. cbn. rewrite Hs. reflexivity. }
  intros l'. unfold parseNameServers. apply List.filter_app.
Qed.

(** ** The path of the operating system's resolver *)

Lemma partition_fold (E : env) (addrs : list string) :
  forall (ips : bool -> list IP) (k : bool),
    fold_left (partition1 E) addrs ips k = ips k ++ omap (parsedAs E k) addrs.
Proof.
  induction addrs as [| a addrs IH]; intros ips k.
  - cbn. rewrite app_nil_r. reflexivity.
  - cbn [fold_left]. rewrite IH.
    assert (Hhead : partition1 E ips a k
                    = ips k ++ match parsedAs E k a with
                               | Some x => [x]
                               | None => []
                               end).
    { unfold partition1, parsedAs.
      destruct (ParseIP E a); destruct (containsColon a), k; cbn;
        rewrite ?app_nil_r; reflexivity. }
    rewrite Hhead. change (omap (parsedAs E k) (a :: addrs))
      with (match parsedAs E k a with
            | Some x => x :: omap (parsedAs E k) addrs
            | None => omap (parsedAs E k) addrs
            end).
    destruct (parsedAs E k a); rewrite <- app_assoc; reflexivity.
Qed.

(** With no nameserver configured and the resolver of the operating system
    answering, lookupHost returns the addresses that parse, those without
    a colon as IPv4 and those with a colon as IPv6, each in the order of the
    answer, with the default TTL; it tries no nameserver and leaves the
    client as it is. *)
Theorem lookupHost_os_partition (E : env) (intf : interference) (host : string)
    (d : dnsClient) (addrs : list string) :
  nameServers d = [] ->
  LookupHost E host = Addrs addrs ->
  lookupHost E intf host d
  = Done ({| r_ip4 := omap (parsedAs E false) addrs;
             r_ip6 := omap (parsedAs E true) addrs;
             r_ttl := 60; r_err := None |}, d, []).
Proof.
  intros Hns Hos. unfold lookupHost. rewrite Hns, Hos. cbn [length Nat.eqb].
  rewrite !partition_fold. reflexivity.
Qed.

(** Configuring only strings that are not IP addresses leaves the client
    with no nameserver, so that its lookups go to the resolver of the
    operating system. *)
Theorem setNameServers_all_invalid (E : env) (intf : interference)
    (host : string) (l : list string) (d : dnsClient) :
  (forall s, s ∈ l -> ParseIP E s = None) ->
  nameServers (setNameServers E l d) = []
  /\ exists r, lookupHost E intf host (setNameServers E l d)
               = Done (r, setNameServers E l d, [])
               /\ r_err r = None /\ r_ttl r = 60.
Proof.
  intros Hbad.
  assert (Hns : nameServers (setNameServers E l d) = []).
  { cbn. unfold parseNameServers. induction l as [| a l IH]; [reflexivity |].
    cbn [List.filter]. rewrite (Hbad a) by left.
    apply IH. intros s Hs. apply Hbad. right. exact Hs. }
  split; [exact Hns |].
  unfold lookupHost. rewrite Hns. cbn [length Nat.eqb].
  destruct (LookupHost E host); eexists; split; reflexivity || (split; reflexivity).
Qed.

Lemma parseNameServers_valid_witness :
  parseNameServers (osAnswers []) ["10.0.0.1"; "10.0.0.2"; "10.0.0.1"]%string
  = ["10.0.0.1"; "10.0.0.2"; "10.0.0.1"]%string
  /\ sublist (parseNameServers (osAnswers [])
                ["10.0.0.1"; "localhost"; "::1"; "10.0.0.300"]%string)
             ["10.0.0.1"; "localhost"; "::1"; "10.0.0.300"]%string.
Proof.
  split.
  - apply (proj1 (proj2 (proj2 (proj2 (parseNameServers_valid (osAnswers [])
             ["10.0.0.1"; "10.0.0.2"; "10.0.0.1"]%string))))).
    intros s Hs.
    repeat (apply elem_of_cons in Hs as [-> | Hs]; [eexists; reflexivity |]).
    inversion Hs.
  - exact (proj1 (parseNameServers_valid (osAnswers []) _)).
Defined.

Lemma lookupHost_os_partition_witness :
  lookupHost (osAnswers ["::1"; "10.0.0.2"; "bogus"; "10.0.0.1"]%string) quiet
             "example.org" newDnsClient
  = Done ({| r_ip4 := [[Byte.x0a; Byte.x00; Byte.x00; Byte.x02];
                       [Byte.x0a; Byte.x00; Byte.x00; Byte.x01]];
             r_ip6 := omap (parsedAs (osAnswers []) true) ["::1"%string];
             r_ttl := 60; r_err := None |}, newDnsClient, []).
Proof.
  exact (lookupHost_os_partition
           (osAnswers ["::1"; "10.0.0.2"; "bogus"; "10.0.0.1"]%string) quiet
           "example.org" newDnsClient _ eq_refl eq_refl).
Defined.

Lemma setNameServers_all_invalid_witness :
  nameServers (setNameServers (osAnswers []) ["localhost"; "ns1.example.org"]%string
                              {| nsCounter := 5; nameServers := three |}) = [].
Proof.
  refine (proj1 (setNameServers_all_invalid (osAnswers []) quiet "example.org"
                   ["localhost"; "ns1.example.org"]%string
                   {| nsCounter := 5; nameServers := three |} _)).
  intros s Hs.
  repeat (apply elem_of_cons in Hs as [-> | Hs]; [reflexivity |]).
  inversion Hs.
Defined.

(** ** The dual query *)

Lemma scan_addrs (q : qtype) (rrs : list RR) :
  forall acc, fst (fold_left (collect q) rrs acc) = fst acc ++ omap (addrOf q) rrs.
Proof.
  induction rrs as [| rr rrs IH]; intros acc.
  - cbn. rewrite app_nil_r. reflexivity.
  - cbn [fold_left]. rewrite IH.
    change (omap (addrOf q) (rr :: rrs))
      with (match addrOf q rr with
            | Some x => x :: omap (addrOf q) rrs
            | None => omap (addrOf q) rrs
            end).
    destruct q, rr; cbn; rewrite <- ?app_assoc; reflexivity.
Qed.

(** The dual query fails exactly when one of its two exchanges fails, with
    the error of a failed exchange, even if the other one answered. *)
Theorem dnsLookupHost_error (E : env) (nServer host : string) :
  let x4 := Exchange E (nServer ++ ":53")%string host TypeA in
  let x6 := Exchange E (nServer ++ ":53")%string host TypeAAAA in
  (r_err (dnsLookupHost E nServer host) = None
   <-> exists rrs4 rrs6, x4 = Answer rrs4 /\ x6 = Answer rrs6)
  /\ (forall e, r_err (dnsLookupHost E nServer host) = Some e ->
        x4 = ExchangeErr e \/ x6 = ExchangeErr e).
Proof.
  cbv zeta. unfold dnsLookupHost; cbn [r_err].
  destruct (Exchange E (nServer ++ ":53")%string host TypeA) as [a4 | e4],
           (Exchange E (nServer ++ ":53")%string host TypeAAAA) as [a6 | e6];
    cbn; try destruct (aaaaFirst (Sched E nServer)); split;
    try (split; [intros H; try discriminate; eauto
                | intros (? & ? & ? & ?); congruence]);
    intros e He; try discriminate; injection He as <-; auto.
Qed.

Lemma dnsLookupHost_error_witness :
  r_err (dnsLookupHost (only ["10.0.0.2"%string]) "10.0.0.2" "example.org") = None
  /\ (Exchange (only ["10.0.0.2"%string]) "10.0.0.1:53" "example.org" TypeA
      = ExchangeErr "read udp 10.0.0.1:53: i/o timeout"
      \/ Exchange (only ["10.0.0.2"%string]) "10.0.0.1:53" "example.org" TypeAAAA
         = ExchangeErr "read udp 10.0.0.1:53: i/o timeout").
Proof.
  split.
  - apply (proj1 (dnsLookupHost_error (only ["10.0.0.2"%string]) "10.0.0.2"
                    "example.org")).
    do 2 eexists. split; reflexivity.
  - apply (proj2 (dnsLookupHost_error (only ["10.0.0.2"%string]) "10.0.0.1"
                    "example.org")).
    reflexivity.
Defined.

(** The addresses of a dual query are those of the A records of the first
    answer and of the AAAA records of the second, in the order of the
    answers; records of other types are skipped, and a failed exchange
    gives no address. *)
Theorem dnsLookupHost_addresses (E : env) (nServer host : string) :
  let x4 := Exchange E (nServer ++ ":53")%string host TypeA in
  let x6 := Exchange E (nServer ++ ":53")%string host TypeAAAA in
  r_ip4 (dnsLookupHost E nServer host)
  = match x4 with Answer rrs => omap (addrOf TypeA) rrs | ExchangeErr _ => [] end
  /\ r_ip6 (dnsLookupHost E nServer host)
     = match x6 with Answer rrs => omap (addrOf TypeAAAA) rrs | ExchangeErr _ => [] end.
Proof.
  cbv zeta. unfold dnsLookupHost; cbn [r_ip4 r_ip6].
  split.
  - destruct (Exchange E (nServer ++ ":53")%string host TypeA); [| reflexivity].
    unfold finished, scan. rewrite scan_addrs. reflexivity.
  - destruct (Exchange E (nServer ++ ":53")%string host TypeAAAA); [| reflexivity].
    unfold finished, scan. rewrite scan_addrs. reflexivity.
Qed.

(** ** Lookups during a reconfiguration that leaves a nameserver *)

Section Serving.
Variables (E : env) (host : string) (intf : interference).
Hypothesis serving : keepsServing intf.

Lemma attempts_turn_serving (k i : nat) (d : dnsClient) (lastr : lookupResult)
    (tried0 : list string) :
  nameServers d <> [] -> 0 <= nsCounter d < 2 ^ 63 - 1 ->
  exists s : string,
    attempts E intf host (S k) i d lastr tried0
    = if failed E host s
      then attempts E intf host k (S i) (bump (intf i d))
                    (dnsLookupHost E s host) (tried0 ++ [s])
      else Done (dnsLookupHost E s host, intf i d, tried0 ++ [s]).
Proof.
  intros Hne Hc. destruct (serving i d) as [Hcnt Hkeep].
  specialize (Hkeep Hne).
  assert (Hn : 0 < Z.of_nat (length (nameServers (intf i d))))
    by (destruct (nameServers (intf i d)); [congruence | cbn [length]; lia]).
  pose proof (Z.mod_pos_bound (nsCounter d) _ Hn) as Hb.
  destruct (lookup_lt_is_Some_2 (nameServers (intf i d))
              (Z.to_nat (nsCounter d mod Z.of_nat (length (nameServers (intf i d))))))
    as [s Hs]; [lia |].
  exists s. cbn [attempts]. rewrite Hcnt.
  destruct (Z.eqb_spec (Z.of_nat (length (nameServers (intf i d)))) 0) as [? | _];
    [lia |].
  rewrite int_of_uint64_small by (pow2; lia).
  rewrite Z.rem_mod_nonneg by lia.
  destruct (Z.ltb_spec (nsCounter d mod Z.of_nat (length (nameServers (intf i d)))) 0)
    as [? | _]; [lia |].
  rewrite Hs. unfold failed.
  destruct (r_err (dnsLookupHost E s host)); reflexivity.
Qed.

Lemma attempts_serving (k : nat) :
  forall (i : nat) (d : dnsClient) (lastr : lookupResult) (tried0 : list string),
    nameServers d <> [] -> 0 <= nsCounter d ->
    nsCounter d + Z.of_nat k < 2 ^ 63 ->
    exists (tried : list string) (d' : dnsClient),
      attempts E intf host k i d lastr tried0
      = Done (resultOf E host lastr tried, d', tried0 ++ tried)
      /\ nsCounter d' = nsCounter d + failures E host tried
      /\ nameServers d' <> []
      /\ (length tried <= k)%nat
      /\ (k <> O -> tried <> [])
      /\ (forall j s, (S j < length tried)%nat -> tried !! j = Some s ->
                      failed E host s = true)
      /\ (forall s, last tried = Some s -> failed E host s = true ->
                    length tried = k).
Proof.
  induction k as [| k IH]; intros i d lastr tried0 Hne Hc Hk.
  - exists [], d. cbn. unfold failures; cbn. rewrite Z.add_0_r, app_nil_r.
    split; [reflexivity |]. split; [reflexivity |]. split; [exact Hne |].
    split; [lia |]. split; [congruence |]. split; [intros; lia |].
    intros; discriminate.
  - destruct (attempts_turn_serving k i d lastr tried0 Hne) as [s Hturn];
      [pow2; lia |].
    rewrite Hturn. destruct (serving i d) as [Hcnt Hkeep].
    destruct (failed E host s) eqn:Hf.
    + destruct (IH (S i) (bump (intf i d)) (dnsLookupHost E s host) (tried0 ++ [s]))
        as (tried & d' & Hrun & Hcount & Hne' & Hlen & Hnonnil & Hbefore & Hlast).
      * cbn. auto.
      * cbn. rewrite Hcnt, wrap64_small by (pow2; lia). lia.
      * cbn. rewrite Hcnt, wrap64_small by (pow2; lia). lia.
      * exists (s :: tried), d'. rewrite Hrun.
        split.
        { f_equal. f_equal; [f_equal |].
          - unfold resultOf. rewrite last_cons. destruct (last tried); reflexivity.
          - rewrite <- app_assoc. reflexivity. }
        split.
        { rewrite Hcount. cbn [bump nsCounter].
          rewrite Hcnt, wrap64_small by (pow2; lia).
          unfold failures; cbn [List.filter]. rewrite Hf. cbn [length]. lia. }
        split; [exact Hne' |]. split; [cbn [length]; lia |].
        split; [discriminate |]. split.
        { intros [| j] s' Hj Hl; cbn in Hl.
          - congruence.
          - apply (Hbefore j); [cbn [length] in Hj; lia | exact Hl]. }
        intros s' Hl Hf'. rewrite last_cons in Hl. cbn [length].
        destruct (last tried) as [s'' |] eqn:El.
        -- f_equal. apply (Hlast s''); congruence.
        -- apply last_None in El. subst tried.
           destruct k; [reflexivity | exfalso; apply Hnonnil; congruence].
    + exists [s], (intf i d). unfold resultOf, failures.
      cbn [last List.filter length]. rewrite Hf. cbn [length].
      split; [reflexivity |]. split; [lia |]. split; [auto |].
      split; [lia |]. split; [discriminate |]. split; [intros j s' Hj; lia |].
      intros s' Hl Hf'. injection Hl as <-. congruence.
Qed.

End Serving.

(** A lookup during which the list of nameservers is replaced, but never by
    an empty list, does not fault: it makes at least one and at most as many
    attempts as the list had entries when the lookup began, returns the
    result of the last server it tried, every server tried before having
    failed, and has advanced the rotation counter once per failure. *)
Theorem lookupHost_survives_reconfiguration (E : env) (intf : interference)
    (host : string) (d : dnsClient) :
  keepsServing intf ->
  nameServers d <> [] -> 0 <= nsCounter d ->
  nsCounter d + Z.of_nat (length (nameServers d)) < 2 ^ 63 ->
  exists (tried : list string) (s : string) (d' : dnsClient),
    lookupHost E intf host d = Done (dnsLookupHost E s host, d', tried)
    /\ last tried = Some s
    /\ (1 <= length tried <= length (nameServers d))%nat
    /\ nsCounter d' = nsCounter d + failures E host tried
    /\ nameServers d' <> []
    /\ (forall j s', (S j < length tried)%nat -> tried !! j = Some s' ->
                     failed E host s' = true)
    /\ (failed E host s = true -> length tried = length (nameServers d)).
Proof.
  intros Hserv Hne Hc Hn.
  destruct (attempts_serving E host intf Hserv (length (nameServers d)) 0%nat d
              {| r_ip4 := []; r_ip6 := []; r_ttl := 0; r_err := None |} []
              Hne Hc Hn)
    as (tried & d' & Hrun & Hcount & Hne' & Hlen & Hnonnil & Hbefore & Hlast).
  assert (Hpos : length (nameServers d) <> O)
    by (destruct (nameServers d); [congruence | discriminate]).
  destruct (last tried) as [s |] eqn:El.
  2:{ apply last_None in El. exfalso. exact (Hnonnil Hpos El). }
  exists tried, s, d'. split.
  - unfold lookupHost.
    destruct (Nat.eqb_spec (length (nameServers d)) 0) as [? | _]; [congruence |].
    rewrite Hrun. unfold resultOf. rewrite El. reflexivity.
  - split; [exact El |]. split.
    + split; [| exact Hlen]. destruct tried; [discriminate | cbn [length]; lia].
    + split; [exact Hcount |]. split; [exact Hne' |]. split; [exact Hbefore |].
      intros Hf. apply (Hlast s); [reflexivity | exact Hf].
Qed.

Lemma lookupHost_survives_reconfiguration_witness :
  exists (tried : list string) (s : string) (d' : dnsClient),
    lookupHost (only ["10.0.0.2"%string])
               (reconfiguredAt (only ["10.0.0.2"%string]) 1
                               ["10.0.0.3"; "10.0.0.2"]%string)
               "example.org" {| nsCounter := 0; nameServers := three |}
    = Done (dnsLookupHost (only ["10.0.0.2"%string]) s "example.org", d', tried)
    /\ last tried = Some s
    /\ (1 <= length tried <= 3)%nat.
Proof.
  destruct (lookupHost_survives_reconfiguration (only ["10.0.0.2"%string])
              (reconfiguredAt (only ["10.0.0.2"%string]) 1
                              ["10.0.0.3"; "10.0.0.2"]%string)
              "example.org" {| nsCounter := 0; nameServers := three |})
    as (tried & s & d' & Hrun & Hlast & Hlen & _).
  - intros i d. unfold reconfiguredAt.
    destruct (Nat.eqb i 1); split; try reflexivity; try discriminate; auto.
  - discriminate.
  - cbn; lia.
  - cbn; pow2; lia.
  - exists tried, s, d'. auto.
Defined.

(** The run of the example: the first turn tries 10.0.0.1 of the old list,
    the second turn 10.0.0.2 at index 1 of the new one. *)
Lemma lookupHost_reconfigured_run :
  exists r d',
    lookupHost (only ["10.0.0.2"%string])
               (reconfiguredAt (only ["10.0.0.2"%string]) 1
                               ["10.0.0.3"; "10.0.0.2"]%string)
               "example.org" {| nsCounter := 0; nameServers := three |}
    = Done (r, d', ["10.0.0.1"; "10.0.0.2"]%string)
    /\ r_err r = None
    /\ d' = {| nsCounter := 1; nameServers := ["10.0.0.3"; "10.0.0.2"]%string |}.
Proof.
  do 2 eexists. split; [vm_compute; reflexivity |]. split; reflexivity.
Qed.

End DnsClientMore.

(** * Further properties of a host *)

Module HostMore.
Import Ips DnsClient Host Spec Scenario More.

Lemma fold_parse_omap (E : env) (l : list string) :
  forall acc : list IP,
    fold_left (fun result v => match ParseIP E v with
                               | Some ip => result ++ [ip]
                               | None => result
                               end) l acc
    = acc ++ omap (ParseIP E) l.
Proof.
  induction l as [| v l IH]; intros acc.
  - cbn. rewrite app_nil_r. reflexivity.
  - cbn [fold_left]. rewrite IH.
    change (omap (ParseIP E) (v :: l))
      with (match ParseIP E v with
            | Some x => x :: omap (ParseIP E) l
            | None => omap (ParseIP E) l
            end).
    destruct (ParseIP E v); rewrite <- ?app_assoc; reflexivity.
Qed.

(** newIpsFromList keeps the strings that parse, in their order, drops the
    others, and starts the rotation at the first address. *)
Theorem newIpsFromList_parsed (E : env) (l : list string) :
  ipList (newIpsFromList E l) = omap (ParseIP E) l
  /\ ipIdx (newIpsFromList E l) = 0
  /\ (length (ipList (newIpsFromList E l)) <= length l)%nat
  /\ (forall ip rest, omap (ParseIP E) l = ip :: rest ->
        fst (getNextIPWithIndex (newIpsFromList E l)) = (Some ip, 0)).
Proof.
  assert (H : ipList (newIpsFromList E l) = omap (ParseIP E) l)
    by (cbn; rewrite fold_parse_omap; reflexivity).
  split; [exact H |]. split; [reflexivity |]. split.
  - rewrite H. clear H. induction l as [| v l IH]; [cbn; lia |].
    change (omap (ParseIP E) (v :: l))
      with (match ParseIP E v with
            | Some x => x :: omap (ParseIP E) l
            | None => omap (ParseIP E) l
            end).
    destruct (ParseIP E v); cbn [length]; lia.
  - intros ip rest Hl. unfold getNextIPWithIndex. rewrite H, Hl.
    cbn [length]. destruct (Z.eqb_spec (Z.of_nat (S (length rest))) 0); [lia |].
    cbn [ipIdx newIpsFromList]. rewrite Z.mod_0_l by lia. reflexivity.
Qed.

Lemma newIpsFromList_parsed_witness :
  fst (getNextIPWithIndex
         (newIpsFromList (osAnswers []) ["bogus"; "10.0.0.2"; "10.0.0.1"]%string))
  = (Some [Byte.x0a; Byte.x00; Byte.x00; Byte.x02], 0).
Proof.
  exact (proj2 (proj2 (proj2 (newIpsFromList_parsed (osAnswers [])
           ["bogus"; "10.0.0.2"; "10.0.0.1"]%string))) _ _ eq_refl).
Defined.

(** ** What a refresh changes *)

Lemma attempts_result (E : env) (intf : interference) (host : string) (k : nat) :
  forall (i : nat) (d : dnsClient) (lastr : lookupResult) (tried0 : list string)
         (r : lookupResult) (d' : dnsClient) (tried : list string),
    attempts E intf host k i d lastr tried0 = Done (r, d', tried) ->
    r = lastr \/ exists s, r = dnsLookupHost E s host.
Proof.
  induction k as [| k IH]; intros i d lastr tried0 r d' tried H.
  - cbn in H. injection H as <- _ _. left. reflexivity.
  - cbn [attempts] in H.
    destruct (Z.of_nat (length (nameServers (intf i d))) =? 0); [discriminate |].
    destruct (Z.rem _ _ <? 0); [discriminate |].
    destruct (nameServers (intf i d) !! _) as [s |]; [| discriminate].
    destruct (r_err (dnsLookupHost E s host)).
    + apply IH in H as [-> | H]; right; [exists s; reflexivity | exact H].
    + injection H as <- _ _. right. exists s. reflexivity.
Qed.

(** The TTL of a lookup that returns without error is at least the floor
    of 60 seconds, whatever happens to the client during the lookup. *)
Lemma lookupHost_ttl_floor (E : env) (intf : interference) (host : string)
    (d d' : dnsClient) (r : lookupResult) (tried : list string) :
  lookupHost E intf host d = Done (r, d', tried) ->
  r_err r = None -> 60 <= r_ttl r.
Proof.
  intros H He. unfold lookupHost in H.
  destruct (Nat.eqb (length (nameServers d)) 0) eqn:Hn.
  - destruct (LookupHost E host); injection H as <- _ _; cbn; unfold defaultTtl; lia.
  - destruct (length (nameServers d)) as [| k] eqn:Hk; [discriminate |].
    cbn [attempts] in H.
    destruct (Z.of_nat (length (nameServers (intf 0%nat d))) =? 0); [discriminate |].
    destruct (Z.rem _ _ <? 0); [discriminate |].
    destruct (nameServers (intf 0%nat d) !! _) as [s |]; [| discriminate].
    destruct (r_err (dnsLookupHost E s host)).
    + apply attempts_result in H as [-> | [s' ->]];
        apply DnsClientFacts.dnsLookupHost_floor.
    + injection H as <- _ _. apply DnsClientFacts.dnsLookupHost_floor.
Qed.

Lemma reloadIPs_keeps (E : env) (intf : interference) (h h' : host)
    (d d' : dnsClient) (ttl : Z) :
  reloadIPs E intf h d = Done (ttl, h', d') ->
  hostName h' = hostName h /\ ready h' = ready h /\ stopCh h' = stopCh h.
Proof.
  unfold reloadIPs. intros H.
  destruct (lookupHost E intf (hostName h) d) as [[[r d1] tried] | msg];
    [| discriminate].
  destruct (r_err r); injection H as <- <- <-; repeat split; reflexivity.
Qed.

Lemma reloadIPsLoop_keeps (E : env) (intf : interference) (w : wake)
    (t t' : task) (h h' : host) (d d' : dnsClient) :
  reloadIPsLoop E intf w t h d = Some (Done (t', h', d')) ->
  hostName h' = hostName h /\ stopCh h' = stopCh h
  /\ (t = Starting -> ready h' = true).
Proof.
  intros H. destruct t as [| ttl |]; cbn in H; [| | discriminate].
  - destruct (reloadIPs E intf h d) as [[[ttl1 h1] d1] | msg] eqn:Hr;
      [| discriminate].
    injection H as <- <- <-.
    destruct (reloadIPs_keeps E intf h h1 d d1 ttl1 Hr) as (Hn & _ & Hs).
    cbn. auto.
  - destruct w.
    + destruct (stopCh h) eqn:Hs; [| discriminate].
      injection H as <- <- <-. split; [auto |]. split; [auto | discriminate].
    + destruct (reloadIPs E intf h d) as [[[ttl1 h1] d1] | msg] eqn:Hr;
        [| discriminate].
      injection H as <- <- <-.
      destruct (reloadIPs_keeps E intf h h1 d d1 ttl1 Hr) as (Hn & _ & Hs).
      split; [auto |]. split; [auto | discriminate].
Qed.

(** A refresh that returns changes nothing of the host but its two address
    lists: name, last-access time, explicit flag, readiness, stop channel
    and both rotation indexes stay; and the time to the next refresh is the
    retry interval of 10 seconds, with the host untouched, or at least 60
    seconds. *)
Theorem reloadIPs_frame (E : env) (intf : interference) (h h' : host)
    (d d' : dnsClient) (ttl : Z) :
  reloadIPs E intf h d = Done (ttl, h', d') ->
  hostName h' = hostName h /\ lastTime h' = lastTime h
  /\ eaFlag h' = eaFlag h /\ ready h' = ready h /\ stopCh h' = stopCh h
  /\ ipIdx (ip4 h') = ipIdx (ip4 h) /\ ipIdx (ip6 h') = ipIdx (ip6 h)
  /\ ((ttl = 10 /\ h' = h) \/ 60 <= ttl).
Proof.
  unfold reloadIPs. intros H.
  destruct (lookupHost E intf (hostName h) d) as [[[r d1] tried] | msg] eqn:Hl;
    [| discriminate].
  destruct (r_err r) as [e |] eqn:He.
  - injection H as <- <- <-. repeat split; try reflexivity. left. auto.
  - injection H as <- <- <-. cbn. repeat split; try reflexivity.
    right. exact (lookupHost_ttl_floor E intf _ _ _ _ _ Hl He).
Qed.

Lemma reloadIPs_frame_witness :
  lastTime (serving "example.org" false 100 [] []) = 100
  /\ ((60 = 10 /\ serving "example.org" false 100 [] []
                  = serving "example.org" false 100 [v4] [v6])
      \/ 60 <= 60).
Proof.
  pose proof (reloadIPs_frame (only []) quiet
                (serving "example.org" false 100 [v4] [v6])
                (serving "example.org" false 100 [] [])
                newDnsClient newDnsClient 60 eq_refl) as H.
  destruct H as (_ & H2 & _ & _ & _ & _ & _ & H8).
  split; [exact H2 | exact H8].
Defined.

(** A refresh whose lookup succeeds stores the two lists of the answer, and
    the readers of the host then see these addresses and no other. *)
Theorem reloadIPs_success (E : env) (intf : interference) (h : host)
    (d d' : dnsClient) (r : lookupResult) (tried : list string) :
  lookupHost E intf (hostName h) d = Done (r, d', tried) ->
  r_err r = None ->
  exists h' : host,
    reloadIPs E intf h d = Done (r_ttl r, h', d')
    /\ getList (ip4 h') = r_ip4 r /\ getList (ip6 h') = r_ip6 r
    /\ (ready h = true -> getIPs h' = Some (r_ip4 r, r_ip6 r))
    /\ (forall now ret h'', getNextIP4WithIndex now h' = Some (ret, h'') ->
          match fst ret with
          | Some ip => ip ∈ r_ip4 r
          | None => r_ip4 r = []
          end)
    /\ (forall now ret h'', getNextIP6WithIndex now h' = Some (ret, h'') ->
          match fst ret with
          | Some ip => ip ∈ r_ip6 r
          | None => r_ip6 r = []
          end).
Proof.
  intros Hl He. eexists. split.
  { unfold reloadIPs. rewrite Hl, He. reflexivity. }
  split; [reflexivity |]. split; [reflexivity |]. split.
  { intros Hr. unfold getIPs. cbn. rewrite Hr. reflexivity. }
  assert (Hread : forall i l (ret : option IP * Z) i',
             getNextIPWithIndex (setIpList l i) = (ret, i') ->
             match fst ret with Some ip => ip ∈ l | None => l = [] end).
  { intros i l ret i' Hg.
    destruct l as [| a l].
    - cbn in Hg. injection Hg as <- _. reflexivity.
    - destruct (IpsMore.getNext_nonempty (setIpList (a :: l) i))
        as (ip & Hg' & Hip); [discriminate |].
      rewrite Hg' in Hg. injection Hg as <- _. cbn [fst].
      apply list_elem_of_lookup. eexists. exact Hip. }
  split.
  - intros now ret h'' Hg. unfold getNextIP4WithIndex in Hg. cbn in Hg.
    destruct (ready h); [| discriminate].
    destruct (getNextIPWithIndex (setIpList (r_ip4 r) (ip4 h))) as [ret' i'] eqn:Hn.
    injection Hg as <- _. exact (Hread _ _ _ _ Hn).
  - intros now ret h'' Hg. unfold getNextIP6WithIndex in Hg. cbn in Hg.
    destruct (ready h); [| discriminate].
    destruct (getNextIPWithIndex (setIpList (r_ip6 r) (ip6 h))) as [ret' i'] eqn:Hn.
    injection Hg as <- _. exact (Hread _ _ _ _ Hn).
Qed.

Lemma reloadIPs_success_witness :
  exists h' : host,
    reloadIPs (only ["10.0.0.2"%string]) quiet
              (serving "example.org" false 100 [] [])
              {| nsCounter := 1; nameServers := three |}
    = Done (300, h', {| nsCounter := 1; nameServers := three |})
    /\ getList (ip4 h') = [v4] /\ getList (ip6 h') = [v6].
Proof.
  destruct (reloadIPs_success (only ["10.0.0.2"%string]) quiet
              (serving "example.org" false 100 [] [])
              {| nsCounter := 1; nameServers := three |}
              {| nsCounter := 1; nameServers := three |}
              (dnsLookupHost (only ["10.0.0.2"%string]) "10.0.0.2" "example.org")
              ["10.0.0.2"%string])
    as (h' & H1 & H2 & H3 & _); [vm_compute; reflexivity | reflexivity |].
  exists h'. split; [exact H1 |]. split; [exact H2 | exact H3].
Defined.

(** ** The goroutine of a host *)

(** A step of the goroutine that returns: the goroutine had not returned
    before; its first step opens the readiness gate whether the lookup
    succeeded or not, and the gate never closes again; it returns only
    through the stop case, which needs the stop channel closed, and then
    without touching the host or the client; no step closes the channel. *)
Theorem reloadIPsLoop_lifecycle (E : env) (intf : interference) (w : wake)
    (t t' : task) (h h' : host) (d d' : dnsClient) :
  reloadIPsLoop E intf w t h d = Some (Done (t', h', d')) ->
  t <> Exited
  /\ (t = Starting -> ready h' = true /\ t' <> Exited)
  /\ (ready h = true -> ready h' = true)
  /\ (t' = Exited -> w = StopCh /\ stopCh h = true /\ h' = h /\ d' = d)
  /\ stopCh h' = stopCh h
  /\ hostName h' = hostName h.
Proof.
  intros H. destruct t as [| ttl |]; cbn in H; [| | discriminate].
  - destruct (reloadIPs E intf h d) as [[[ttl1 h1] d1] | msg] eqn:Hr;
      [| discriminate].
    injection H as <- <- <-.
    destruct (reloadIPs_keeps E intf h h1 d d1 ttl1 Hr) as (Hn & _ & Hs).
    split; [discriminate |]. split; [intros _; split; [reflexivity | discriminate] |].
    split; [reflexivity |]. split; [discriminate |]. cbn. auto.
  - destruct w.
    + destruct (stopCh h) eqn:Hs; [| discriminate].
      injection H as <- <- <-. split; [discriminate |].
      split; [discriminate |]. split; [auto |]. split; [auto |]. auto.
    + destruct (reloadIPs E intf h d) as [[[ttl1 h1] d1] | msg] eqn:Hr;
        [| discriminate].
      injection H as <- <- <-.
      destruct (reloadIPs_keeps E intf h h1 d d1 ttl1 Hr) as (Hn & Hrd & Hs).
      split; [discriminate |]. split; [discriminate |].
      split; [congruence |]. split; [discriminate |]. auto.
Qed.

Lemma reloadIPsLoop_lifecycle_witness :
  reloadIPsLoop (only []) quiet TtlCh Starting (newHost "example.org" true 100)
                newDnsClient
  = Some (Done (Waiting 60, setReady (newHost "example.org" true 100), newDnsClient))
  /\ ready (setReady (newHost "example.org" true 100)) = true.
Proof.
  assert (H : reloadIPsLoop (only []) quiet TtlCh Starting
                (newHost "example.org" true 100) newDnsClient
              = Some (Done (Waiting 60, setReady (newHost "example.org" true 100),
                            newDnsClient))) by reflexivity.
  split; [exact H |].
  exact (proj1 (proj1 (proj2 (reloadIPsLoop_lifecycle _ _ _ _ _ _ _ _ _ H)) eq_refl)).
Defined.

(** A new host blocks its readers; once its goroutine has made its first
    step, whatever the outcome of the lookup, every reader returns. *)
Theorem first_refresh_opens_gate (E : env) (intf : interference) (w : wake)
    (name : string) (eaFlag : bool) (now : Z) (d d' : dnsClient)
    (t' : task) (h' : host) :
  reloadIPsLoop E intf w Starting (newHost name eaFlag now) d
  = Some (Done (t', h', d')) ->
  getIPs (newHost name eaFlag now) = None
  /\ (forall now', getNextIP4WithIndex now' (newHost name eaFlag now) = None
                   /\ getNextIP6WithIndex now' (newHost name eaFlag now) = None)
  /\ is_Some (getIPs h')
  /\ (forall now', exists ret4 ret6 h4 h6,
         getNextIP4WithIndex now' h' = Some (ret4, h4)
         /\ getNextIP6WithIndex now' h' = Some (ret6, h6)
         /\ lastTime h4 = now' /\ lastTime h6 = now').
Proof.
  intros H.
  destruct (reloadIPsLoop_keeps _ _ _ _ _ _ _ _ _ H) as (_ & _ & Hs).
  pose proof (Hs eq_refl) as Hr.
  split; [reflexivity |]. split; [intros now'; split; reflexivity |].
  split; [unfold getIPs; rewrite Hr; eexists; reflexivity |].
  intros now'. unfold getNextIP4WithIndex, getNextIP6WithIndex. rewrite Hr.
  destruct (getNextIPWithIndex (ip4 h')) as [ret4 i4].
  destruct (getNextIPWithIndex (ip6 h')) as [ret6 i6].
  do 4 eexists. split; [reflexivity |]. split; [reflexivity |].
  split; reflexivity.
Qed.

Lemma first_refresh_opens_gate_witness :
  is_Some (getIPs (setReady (newHost "example.org" true 100))).
Proof.
  exact (proj1 (proj2 (proj2 (first_refresh_opens_gate (only []) quiet TtlCh
           "example.org" true 100 newDnsClient newDnsClient (Waiting 60)
           (setReady (newHost "example.org" true 100)) eq_refl)))).
Defined.

End HostMore.

(** * Further properties of the registry *)

Module RegistryMore.
Import Ips DnsClient Host Registry Spec Scenario More.

(** ** Removal *)

Lemma fold_delete_lookup (names : list string) :
  forall (m : gmap string nat) (n : string),
    fold_left (fun m h => delete h m) names m !! n
    = if decide (n ∈ names) then None else m !! n.
Proof.
  induction names as [| a names IH]; intros m n.
  - cbn. destruct (decide (n ∈ [])) as [H | _]; [inversion H | reflexivity].
  - cbn [fold_left]. rewrite IH.
    destruct (decide (n ∈ names)) as [Hin | Hout].
    + rewrite decide_True by (right; exact Hin). reflexivity.
    + destruct (decide (a = n)) as [-> | Hne].
      * rewrite decide_True by left. apply lookup_delete_eq.
      * rewrite lookup_delete_ne by exact Hne.
        rewrite decide_False; [reflexivity |].
        intros Hc. apply elem_of_cons in Hc as [-> | Hc]; [congruence | auto].
Qed.

Lemma delHosts_lookup (names : list string) (r : Resolver) (n : string) :
  hosts (delHosts names r) !! n
  = if decide (n ∈ names) then None else hosts r !! n.
Proof. apply fold_delete_lookup. Qed.

(** delHosts removes exactly the names it is given from the map, names
    that are not in the map being ignored; it touches neither the hosts
    themselves nor the client, and doing it twice is doing it once. *)
Theorem delHosts_removes (names : list string) (r : Resolver) :
  (forall n, hosts (delHosts names r) !! n
             = if decide (n ∈ names) then None else hosts r !! n)
  /\ heap (delHosts names r) = heap r
  /\ dnsClient (delHosts names r) = dnsClient r
  /\ ((forall n, n ∈ names -> hosts r !! n = None) -> delHosts names r = r)
  /\ delHosts names (delHosts names r) = delHosts names r.
Proof.
  split; [apply delHosts_lookup |]. split; [reflexivity |]. split; [reflexivity |].
  assert (Hext : forall r1 r2 : Resolver,
             hosts r1 = hosts r2 -> heap r1 = heap r2 ->
             dnsClient r1 = dnsClient r2 -> stopCh r1 = stopCh r2 ->
             sweeping r1 = sweeping r2 -> r1 = r2).
  { intros [] [] ? ? ? ? ?; cbn in *; congruence. }
  split.
  - intros Habs. apply Hext; try reflexivity.
    apply map_eq. intros n. rewrite delHosts_lookup.
    destruct (decide (n ∈ names)) as [Hin | _]; [| reflexivity].
    symmetry. apply Habs. exact Hin.
  - apply Hext; try reflexivity.
    apply map_eq. intros n. rewrite !delHosts_lookup.
    destruct (decide (n ∈ names)); reflexivity.
Qed.

Lemma delHosts_removes_witness :
  hosts (delHosts ["a"; "ghost"]%string
           (AddHost "b" 2 (AddHost "a" 1 New))) !! "b"%string = Some 1%nat
  /\ delHosts ["ghost"%string] New = New.
Proof.
  destruct (delHosts_removes ["a"; "ghost"]%string (AddHost "b" 2 (AddHost "a" 1 New)))
    as (H1 & _).
  destruct (delHosts_removes ["ghost"%string] New) as (_ & _ & _ & H4 & _).
  split.
  - rewrite H1. vm_compute. reflexivity.
  - apply H4. intros n _. apply lookup_empty.
Defined.

(** One tick of the sweeping loop, other goroutines acting between its
    collection under the read lock and its deletion under the write lock.
    The names collected are those that, at the time of the collection, were
    in the map with a host that is not explicitly added and that isOld
    judges old.  The tick deletes exactly these names from the map as it is
    at the time of the deletion, whatever they point to by then, and
    touches neither the hosts nor the client; a name whose host was
    explicitly added at the time of the collection is not deleted by this
    tick.  With nothing in between, the tick is [sweep]. *)
Theorem sweepBetween_frame (clock : string -> Z * Z)
    (others : Resolver -> Resolver) (r : Resolver) :
  heap (sweepBetween clock others r) = heap (others r)
  /\ dnsClient (sweepBetween clock others r) = dnsClient (others r)
  /\ (forall n, hosts (sweepBetween clock others r) !! n
                = if decide (n ∈ hostsToDel clock r) then None
                  else hosts (others r) !! n)
  /\ (forall n, n ∈ hostsToDel clock r
                <-> exists p c, hosts r !! n = Some p /\ heap r !! p = Some c
                                /\ isOld (fst (clock n)) (snd (clock n)) (obj c) = true
                                /\ isExplicitlyAdded (obj c) = false)
  /\ (forall n p c, hosts r !! n = Some p -> heap r !! p = Some c ->
        isExplicitlyAdded (obj c) = true ->
        hosts (sweepBetween clock others r) !! n = hosts (others r) !! n)
  /\ (others r = r -> sweepBetween clock others r = sweep clock r).
Proof.
  assert (Hl : forall n, hosts (sweepBetween clock others r) !! n
                 = if decide (n ∈ hostsToDel clock r) then None
                   else hosts (others r) !! n).
  { intros n. unfold sweepBetween.
    destruct (hostsToDel clock r) as [| a l] eqn:Hd.
    - cbn. destruct (decide (n ∈ [])) as [H | _]; [inversion H | reflexivity].
    - cbn [length]. destruct (Z.ltb_spec 0 (Z.of_nat (S (length l)))); [| lia].
      apply delHosts_lookup. }
  split; [unfold sweepBetween; destruct (0 <? _); reflexivity |].
  split; [unfold sweepBetween; destruct (0 <? _); reflexivity |].
  split; [exact Hl |]. split; [| split].
  - intros n. unfold hostsToDel. split.
    + intros Hin.
      apply list_elem_of_fmap in Hin as ([n' p'] & -> & Hin).
      apply list_elem_of_In, filter_In in Hin as [Hin Hf].
      apply list_elem_of_In, elem_of_map_to_list in Hin. cbn [fst snd] in *.
      destruct (heap r !! p') as [c |] eqn:Hc; [| discriminate].
      apply andb_true_iff in Hf as [Ho He]. apply negb_true_iff in He.
      exists p', c. auto.
    + intros (p & c & Hn & Hc & Ho & He).
      apply list_elem_of_fmap. exists (n, p). split; [reflexivity |].
      apply list_elem_of_In, filter_In. split.
      * apply list_elem_of_In, elem_of_map_to_list. exact Hn.
      * cbn [fst snd]. rewrite Hc, Ho, He. reflexivity.
  - intros n p c Hn Hp He. rewrite Hl.
    rewrite decide_False; [reflexivity |].
    exact (RegistryFacts.sweep_keeps_explicit clock r n p c Hn Hp He).
  - intros Hsame. unfold sweepBetween, sweep. rewrite Hsame. reflexivity.
Qed.

Lemma sweepBetween_frame_witness :
  hosts (sweepBetween (fun _ => (5000, 5000)) (AddHost "b" 2) (AddHost "a" 1 New))
    !! "a"%string
  = Some 0%nat.
Proof.
  rewrite (proj1 (proj2 (proj2 (proj2 (proj2
             (sweepBetween_frame (fun _ => (5000, 5000)) (AddHost "b" 2)
                (AddHost "a" 1 New))))))
             "a"%string 0%nat
             {| obj := newHost "a" true 1; goroutine := Starting |});
    vm_compute; reflexivity.
Defined.

(** The two locks at work: a host made implicitly is collected; before the
    deletion the name is removed and added again, explicitly; the tick
    then deletes the name of the explicitly added host. *)
Lemma sweepBetween_deletes_readded :
  let r := fst (create false "foo" 0 New) in
  let others := fun r => AddHost "foo" 10 (DelHost "foo" r) in
  hostsToDel (fun _ => (5000, 5000)) r = ["foo"%string]
  /\ hosts (others r) !! "foo"%string = Some 1%nat
  /\ (isExplicitlyAdded ∘ obj) <$> heap (others r) !! 1%nat = Some true
  /\ hosts (sweepBetween (fun _ => (5000, 5000)) others r) !! "foo"%string = None.
Proof.
  cbv zeta. repeat split; vm_compute; reflexivity.
Qed.

(** ** The invariant of the registry *)

Lemma Inv_New : Inv New.
Proof. intros name p H. rewrite RegistryFacts.New_absent in H. discriminate. Qed.

Lemma Inv_create (eaFlag : bool) (name : string) (now : Z) (r : Resolver) :
  Inv r -> Inv (fst (create eaFlag name now r)).
Proof.
  intros HI. destruct (hosts r !! name) as [p |] eqn:Hn.
  - rewrite (RegistryFacts.create_present _ _ _ _ _ Hn). exact HI.
  - rewrite (RegistryFacts.create_absent _ _ _ _ Hn). cbn [fst].
    intros name' p' H. cbn in H |- *.
    destruct (decide (name = name')) as [<- | Hne].
    + rewrite lookup_insert_eq in H. injection H as <-.
      exists {| obj := newHost name eaFlag now; goroutine := Starting |}.
      split; [| split; reflexivity].
      rewrite lookup_app_r by lia. rewrite Nat.sub_diag. reflexivity.
    + rewrite lookup_insert_ne in H by exact Hne.
      destruct (HI name' p' H) as (c & Hc & Hrest).
      exists c. split; [| exact Hrest].
      apply lookup_app_l_Some. exact Hc.
Qed.

Lemma Inv_heap_update (r : Resolver) (p : nat) (c : cell) (h' : host) (t : task)
    (d : DnsClient.dnsClient) :
  Inv r -> heap r !! p = Some c ->
  hostName h' = hostName (obj c) -> Host.stopCh h' = Host.stopCh (obj c) ->
  Inv (withClient d
         (withHeap (<[p := {| obj := h'; goroutine := t |}]> (heap r)) r)).
Proof.
  intros HI Hp Hn Hs name q H. cbn in H |- *.
  destruct (HI name q H) as (c' & Hc' & Hname & Hstop).
  destruct (decide (p = q)) as [<- | Hne].
  - rewrite list_lookup_insert_eq by (apply lookup_lt_Some in Hp; exact Hp).
    eexists. split; [reflexivity |]. cbn. split; congruence.
  - rewrite list_lookup_insert_ne by exact Hne. eauto.
Qed.

Lemma Inv_AddHost (name : string) (now : Z) (r : Resolver) :
  Inv r -> Inv (AddHost name now r).
Proof.
  intros HI. unfold AddHost.
  destruct (hosts r !! name); [exact HI | apply Inv_create; exact HI].
Qed.

Lemma withClient_same (r : Resolver) : withClient (dnsClient r) r = r.
Proof. destruct r; reflexivity. Qed.

(** Every operation of the registry keeps its invariant: the names of the
    map point to hosts of the heap that bear that name and whose stop
    channel is open. *)
Theorem Inv_preserved (r : Resolver) :
  Inv r ->
  (forall eaFlag name now, Inv (fst (create eaFlag name now r)))
  /\ (forall name now, Inv (AddHost name now r))
  /\ (forall names, Inv (delHosts names r))
  /\ (forall clock, Inv (sweep clock r))
  /\ (forall E l, Inv (WithNameservers E l r))
  /\ (forall f name now p p' r', stepGet f name now p r = (p', r') -> Inv r')
  /\ (forall E intf w p r', stepTask E intf w p r = Some (Done r') -> Inv r').
Proof.
  intros HI.
  assert (Hdel : forall names, Inv (delHosts names r)).
  { intros names name p H. rewrite delHosts_lookup in H.
    destruct (decide (name ∈ names)); [discriminate |]. exact (HI name p H). }
  split; [intros; apply Inv_create; exact HI |].
  split; [intros; apply Inv_AddHost; exact HI |].
  split; [exact Hdel |].
  split.
  { intros clock. unfold sweep. destruct (0 <? _); [apply Hdel | exact HI]. }
  split; [intros E l; exact HI |].
  split.
  - intros f name now p p' r' Hstep. destruct p as [| | h | h ret]; cbn in Hstep.
    + destruct (hosts r !! name); injection Hstep as _ <-; exact HI.
    + pose proof (Inv_create false name now r HI) as Hc.
      destruct (create false name now r) as [r1 h]. injection Hstep as _ <-.
      exact Hc.
    + destruct (heap r !! h) as [c |] eqn:Hc; [| injection Hstep as _ <-; exact HI].
      assert (Hupd : forall h', hostName h' = hostName (obj c) ->
                       Host.stopCh h' = Host.stopCh (obj c) ->
                       Inv (withHeap (setObj h h' (heap r)) r)).
      { intros h' Hn Hs. unfold setObj. rewrite Hc.
        rewrite <- (withClient_same (withHeap _ r)).
        apply (Inv_heap_update r h c h' (goroutine c) (dnsClient r) HI Hc Hn Hs). }
      destruct f.
      * unfold getNextIP4WithIndex in Hstep. destruct (ready (obj c)).
        -- destruct (getNextIPWithIndex (ip4 (obj c))) as [ret i].
           injection Hstep as _ <-. apply Hupd; reflexivity.
        -- injection Hstep as _ <-. exact HI.
      * unfold getNextIP6WithIndex in Hstep. destruct (ready (obj c)).
        -- destruct (getNextIPWithIndex (ip6 (obj c))) as [ret i].
           injection Hstep as _ <-. apply Hupd; reflexivity.
        -- injection Hstep as _ <-. exact HI.
    + injection Hstep as _ <-. exact HI.
  - intros E intf w p r' Hstep. unfold stepTask in Hstep.
    destruct (heap r !! p) as [c |] eqn:Hc; [| discriminate].
    destruct (reloadIPsLoop E intf w (goroutine c) (obj c) (dnsClient r))
      as [[[[t h'] d'] | msg] |] eqn:Hl; try discriminate.
    injection Hstep as <-.
    destruct (HostMore.reloadIPsLoop_keeps _ _ _ _ _ _ _ _ _ Hl) as (Hn & Hs & _).
    apply (Inv_heap_update r p c h' t d' HI Hc Hn Hs).
Qed.

Lemma Inv_preserved_witness :
  Inv (delHosts ["b"%string] (AddHost "a" 1 New)).
Proof.
  destruct (Inv_preserved New Inv_New) as (_ & HA & _).
  destruct (Inv_preserved (AddHost "a" 1 New) (HA "a"%string 1)) as (_ & _ & HD & _).
  apply HD.
Defined.

(** ** Stopping *)

Lemma NoDup_snd_of_fst (l : list (string * nat)) :
  NoDup (l.*1) ->
  (forall n1 n2 p, (n1, p) ∈ l -> (n2, p) ∈ l -> n1 = n2) ->
  NoDup (l.*2).
Proof.
  induction l as [| [n p] l IH]; intros Hnd Hinj; [constructor |].
  cbn in Hnd |- *. apply NoDup_cons in Hnd as [Hn Hnd].
  apply NoDup_cons. split.
  - intros Hp. apply list_elem_of_fmap in Hp as ([n' p'] & Hp' & Hin).
    cbn in Hp'. subst p'.
    assert (n' = n) by (apply (Hinj n' n p); [right; exact Hin | left]).
    subst n'. apply Hn. apply list_elem_of_fmap. exists (n, p). auto.
  - apply IH; [exact Hnd |].
    intros n1 n2 q H1 H2. apply (Hinj n1 n2 q); right; assumption.
Qed.

Lemma stop_fold (l : list (string * nat)) :
  forall hp : list cell,
    NoDup (l.*2) ->
    (forall n p, (n, p) ∈ l ->
       exists c, hp !! p = Some c /\ Host.stopCh (obj c) = false) ->
    exists hp' : list cell,
      fold_left (fun acc kv => match acc with
                               | Done hp => stopAt (snd kv) hp
                               | Panic msg => Panic msg
                               end) l (Done hp) = Done hp'
      /\ length hp' = length hp
      /\ (forall n p, (n, p) ∈ l ->
            exists c, hp' !! p = Some c /\ Host.stopCh (obj c) = true)
      /\ (forall p, p ∉ l.*2 -> hp' !! p = hp !! p).
Proof.
  induction l as [| [n p] l IH]; intros hp Hnd Hopen.
  - exists hp. cbn. split; [reflexivity |]. split; [reflexivity |].
    split; [intros n p H; inversion H | reflexivity].
  - cbn in Hnd. apply NoDup_cons in Hnd as [Hp Hnd].
    destruct (Hopen n p) as (c & Hc & Hs); [left |].
    set (c1 := {| obj := {| hostName := hostName (obj c); ip4 := ip4 (obj c);
                            ip6 := ip6 (obj c); lastTime := lastTime (obj c);
                            eaFlag := eaFlag (obj c); ready := ready (obj c);
                            Host.stopCh := true |};
                  goroutine := goroutine c |}).
    assert (Hstop : stopAt p hp = Done (<[p := c1]> hp)).
    { unfold stopAt, stop, setObj. rewrite Hc, Hs. reflexivity. }
    destruct (IH (<[p := c1]> hp) Hnd) as (hp' & Hrun & Hlen & Hall & Hrest).
    { intros n' p' Hin.
      assert (p' <> p).
      { intros ->. apply Hp. apply list_elem_of_fmap. exists (n', p). auto. }
      rewrite list_lookup_insert_ne by congruence.
      apply (Hopen n' p'). right. exact Hin. }
    exists hp'. cbn [fold_left snd]. rewrite Hstop.
    split; [exact Hrun |].
    split; [rewrite Hlen; apply length_insert |]. split.
    + intros n' p' Hin. apply elem_of_cons in Hin as [Heq | Hin].
      * injection Heq as -> ->. exists c1. split; [| reflexivity].
        rewrite (Hrest p Hp).
        apply list_lookup_insert_eq. apply lookup_lt_Some in Hc. exact Hc.
      * apply (Hall n' p' Hin).
    + intros q Hq. cbn in Hq. apply not_elem_of_cons in Hq as [Hne Hq].
      rewrite (Hrest q Hq). apply list_lookup_insert_ne. congruence.
Qed.

Lemma emptyHosts_Inv (r : Resolver) :
  Inv r ->
  exists hp' : list cell,
    emptyHosts r = Done (withHosts ∅ (withHeap hp' r))
    /\ length hp' = length (heap r)
    /\ (forall n p, hosts r !! n = Some p ->
          exists c, hp' !! p = Some c /\ Host.stopCh (obj c) = true)
    /\ (forall p, (forall n, hosts r !! n <> Some p) -> hp' !! p = heap r !! p).
Proof.
  intros HI.
  destruct (stop_fold (map_to_list (hosts r)) (heap r))
    as (hp' & Hrun & Hlen & Hall & Hrest).
  - apply NoDup_snd_of_fst; [apply NoDup_fst_map_to_list |].
    intros n1 n2 p H1 H2. apply elem_of_map_to_list in H1, H2.
    destruct (HI n1 p H1) as (c1 & Hc1 & Hn1 & _).
    destruct (HI n2 p H2) as (c2 & Hc2 & Hn2 & _). congruence.
  - intros n p Hin. apply elem_of_map_to_list in Hin.
    destruct (HI n p Hin) as (c & Hc & _ & Hs). eauto.
  - exists hp'. unfold emptyHosts. rewrite Hrun.
    split; [reflexivity |]. split; [exact Hlen |]. split.
    + intros n p Hn. apply (Hall n p). apply elem_of_map_to_list. exact Hn.
    + intros p Hp. apply Hrest. intros Hin.
      apply list_elem_of_fmap in Hin as ([n p'] & Hp' & Hin). cbn in Hp'. subst p'.
      apply elem_of_map_to_list in Hin. exact (Hp n Hin).
Qed.

(** Stop: while the registry is not stopped the stop case of the sweeping
    loop cannot fire; after Stop the loop closes the stop channel of every
    host of the map, empties the map and returns for good.  The hosts that
    had left the map before are not touched, and a second Stop panics. *)
Theorem Stop_stops_all (clock : string -> Z * Z) (r : Resolver) :
  Inv r -> stopCh r = false -> sweeping r = true ->
  oldHostsDeleteLoop clock RStop r = None
  /\ exists r1 r2 : Resolver,
       Stop r = Done r1
       /\ oldHostsDeleteLoop clock RStop r1 = Some (Done r2)
       /\ hosts r2 = ∅ /\ sweeping r2 = false
       /\ length (heap r2) = length (heap r)
       /\ (forall n p, hosts r !! n = Some p ->
             exists c, heap r2 !! p = Some c /\ Host.stopCh (obj c) = true)
       /\ (forall p, (forall n, hosts r !! n <> Some p) ->
             heap r2 !! p = heap r !! p)
       /\ (forall w, oldHostsDeleteLoop clock w r2 = None)
       /\ Stop r1 = Panic "close of closed channel".
Proof.
  intros HI Hs Hw. split.
  { unfold oldHostsDeleteLoop. rewrite Hw, Hs. reflexivity. }
  set (r1 := {| hosts := hosts r; heap := heap r; dnsClient := dnsClient r;
                stopCh := true; sweeping := sweeping r |}).
  assert (HI1 : Inv r1) by exact HI.
  destruct (emptyHosts_Inv r1 HI1) as (hp' & Hrun & Hlen & Hall & Hrest).
  exists r1. eexists.
  split; [unfold Stop; rewrite Hs; reflexivity |].
  split.
  { unfold oldHostsDeleteLoop. cbn [sweeping stopCh r1]. rewrite Hw, Hrun.
    reflexivity. }
  cbn. split; [reflexivity |]. split; [reflexivity |]. split; [exact Hlen |].
  split; [exact Hall |]. split; [exact Hrest |].
  split; [intros w; reflexivity | reflexivity].
Qed.

Lemma Stop_stops_all_witness :
  exists r1 r2 : Resolver,
    Stop (AddHost "a" 1 New) = Done r1
    /\ oldHostsDeleteLoop (fun _ => (5000, 5000)) RStop r1 = Some (Done r2)
    /\ hosts r2 = ∅.
Proof.
  destruct (Stop_stops_all (fun _ => (5000, 5000)) (AddHost "a" 1 New))
    as (_ & r1 & r2 & H1 & H2 & H3 & _).
  - apply Inv_AddHost, Inv_New.
  - vm_compute. reflexivity.
  - vm_compute. reflexivity.
  - exists r1, r2. auto.
Defined.

(** ** Creation by the getters *)

(** A getter called for a name that is absent makes an implicit entry with
    a host that is not ready, and blocks on it; an AddHost of that name
    afterwards changes nothing, so the entry stays implicit. *)
Theorem getter_creates_implicit (f : family) (name : string) (now now' : Z)
    (r : Resolver) :
  hosts r !! name = None ->
  let r1 := fst (create false name now r) in
  let p := length (heap r) in
  stepGet f name now AtCheck r = (AtCreate, r)
  /\ stepGet f name now AtCreate r = (AtRead p, r1)
  /\ stepGet f name now' (AtRead p) r1 = (AtRead p, r1)
  /\ getNext f name now r = None
  /\ hosts r1 !! name = Some p
  /\ heap r1 !! p = Some {| obj := newHost name false now; goroutine := Starting |}
  /\ AddHost name now' r1 = r1
  /\ GetIPs name r1 = None.
Proof.
  intros Habs. cbv zeta.
  rewrite (RegistryFacts.create_absent false name now r Habs). cbn [fst].
  set (r1 := withHosts _ _).
  assert (Hp : hosts r1 !! name = Some (length (heap r)))
    by (subst r1; cbn; apply lookup_insert_eq).
  assert (Hc : heap r1 !! length (heap r)
               = Some {| obj := newHost name false now; goroutine := Starting |}).
  { subst r1. cbn. rewrite lookup_app_r by lia. rewrite Nat.sub_diag. reflexivity. }
  assert (H1 : stepGet f name now AtCheck r = (AtCreate, r))
    by (cbn; rewrite Habs; reflexivity).
  assert (H2 : stepGet f name now AtCreate r = (AtRead (length (heap r)), r1))
    by (cbn [stepGet]; rewrite (RegistryFacts.create_absent false name now r Habs);
        reflexivity).
  assert (H3 : forall t, stepGet f name t (AtRead (length (heap r))) r1
                         = (AtRead (length (heap r)), r1))
    by (intros t; cbn [stepGet]; rewrite Hc; destruct f; reflexivity).
  split; [exact H1 |]. split; [exact H2 |]. split; [apply H3 |].
  split; [unfold getNext; rewrite H1, H2, H3; reflexivity |].
  split; [exact Hp |]. split; [exact Hc |].
  split; [exact (RegistryFacts.AddHost_present name now' r1 _ Hp) |].
  unfold GetIPs. rewrite Hp, Hc. reflexivity.
Qed.

Lemma getter_creates_implicit_witness :
  getNext V4 "example.org" 7 New = None
  /\ hosts (fst (create false "example.org" 7 New)) !! "example.org"%string
     = Some 0%nat.
Proof.
  pose proof (getter_creates_implicit V4 "example.org" 7 8 New
                (RegistryFacts.New_absent _)) as H.
  cbv zeta in H. destruct H as (_ & _ & _ & H4 & H5 & _).
  split; [exact H4 | exact H5].
Defined.



(** ** The goroutines and the registry *)

(** A step of the goroutine of a host changes that host, its own state and
    the shared client, and nothing else: the map, the other cells of the
    heap and the state of the sweeping loop stay. *)
Theorem stepTask_frame (E : env) (intf : interference) (w : wake) (p : nat)
    (r r' : Resolver) :
  stepTask E intf w p r = Some (Done r') ->
  hosts r' = hosts r
  /\ length (heap r') = length (heap r)
  /\ (forall q, q <> p -> heap r' !! q = heap r !! q)
  /\ stopCh r' = stopCh r /\ sweeping r' = sweeping r
  /\ (exists c c', heap r !! p = Some c /\ heap r' !! p = Some c'
                   /\ goroutine c <> Exited
                   /\ hostName (obj c') = hostName (obj c)).
Proof.
  unfold stepTask. intros H.
  destruct (heap r !! p) as [c |] eqn:Hc; [| discriminate].
  destruct (reloadIPsLoop E intf w (goroutine c) (obj c) (dnsClient r))
    as [[[[t h'] d'] | msg] |] eqn:Hl; try discriminate.
  injection H as <-. cbn.
  split; [reflexivity |]. split; [apply length_insert |].
  split; [intros q Hq; apply list_lookup_insert_ne; congruence |].
  split; [reflexivity |]. split; [reflexivity |].
  exists c. eexists. split; [reflexivity |].
  split; [apply list_lookup_insert_eq; apply lookup_lt_Some in Hc; exact Hc |].
  destruct (HostMore.reloadIPsLoop_keeps _ _ _ _ _ _ _ _ _ Hl) as (Hn & _ & _).
  split; [| exact Hn].
  intros He. rewrite He in Hl. discriminate.
Qed.

Lemma stepTask_frame_witness :
  exists r', stepTask (only []) quiet TtlCh 0 (AddHost "a" 1 New) = Some (Done r')
             /\ hosts r' = hosts (AddHost "a" 1 New).
Proof.
  eexists. split; [vm_compute; reflexivity |].
  refine (proj1 (stepTask_frame (only []) quiet TtlCh 0 (AddHost "a" 1 New) _ _)).
  vm_compute. reflexivity.
Defined.

(** ** Registering again *)

(** AddHost after DelHost makes a new host, in a new cell, with empty
    address sets and a closed readiness gate: the addresses cached for the
    name are not taken over, and the cell of the removed host stays in the
    heap as it was. *)
Theorem readd_is_fresh (name : string) (now : Z) (r : Resolver) (p : nat) :
  Inv r -> hosts r !! name = Some p ->
  let r' := AddHost name now (DelHost name r) in
  hosts r' !! name = Some (length (heap r))
  /\ p <> length (heap r)
  /\ heap r' !! length (heap r)
     = Some {| obj := newHost name true now; goroutine := Starting |}
  /\ heap r' !! p = heap r !! p
  /\ GetIPs name r' = None
  /\ (forall n, n <> name -> hosts r' !! n = hosts r !! n).
Proof.
  intros HI Hn. cbv zeta.
  assert (Habs : hosts (DelHost name r) !! name = None).
  { rewrite RegistryFacts.DelHost_lookup. rewrite decide_True; reflexivity. }
  destruct (RegistryFacts.AddHost_absent name now (DelHost name r) Habs)
    as (H1 & H2 & H3).
  change (heap (DelHost name r)) with (heap r) in *.
  destruct (HI name p Hn) as (c & Hc & _).
  pose proof (lookup_lt_Some _ _ _ Hc) as Hlt.
  assert (Hnew : heap (AddHost name now (DelHost name r)) !! length (heap r)
                 = Some {| obj := newHost name true now; goroutine := Starting |}).
  { rewrite H2, lookup_app_r by lia. rewrite Nat.sub_diag. reflexivity. }
  split; [exact H1 |]. split; [lia |]. split; [exact Hnew |].
  split; [rewrite H2; apply lookup_app_l; exact Hlt |].
  split; [unfold GetIPs; rewrite H1, Hnew; reflexivity |].
  intros n Hne. rewrite H3 by exact Hne.
  rewrite RegistryFacts.DelHost_lookup. rewrite decide_False by congruence.
  reflexivity.
Qed.

Lemma readd_is_fresh_witness :
  hosts (AddHost "a" 2 (DelHost "a" (AddHost "a" 1 New))) !! "a"%string
  = Some 1%nat.
Proof.
  refine (proj1 (readd_is_fresh "a" 2 (AddHost "a" 1 New) 0 _ _)).
  - apply Inv_AddHost, Inv_New.
  - vm_compute. reflexivity.
Defined.

End RegistryMore.

(** * Properties of the polling resolver *)

Module LegacyFacts.
Import DnsClient More Legacy.

Lemma insertSorted_perm (a : string) (l : list string) :
  insertSorted a l ≡ₚ a :: l.
Proof.
  induction l as [| x l IH]; [reflexivity |]. cbn [insertSorted].
  destruct (String.leb a x); [reflexivity |].
  rewrite IH. apply Permutation_swap.
Qed.

Lemma sortStrings_perm (l : list string) : sortStrings l ≡ₚ l.
Proof.
  induction l as [| a l IH]; [reflexivity |]. cbn [sortStrings foldr].
  rewrite insertSorted_perm. fold (sortStrings l). rewrite IH. reflexivity.
Qed.

Lemma insertSorted_sorted (a : string) (l : list string) :
  Sorted lebs l -> Sorted lebs (insertSorted a l).
Proof.
  induction l as [| x l IH]; intros Hs; cbn [insertSorted].
  - repeat constructor.
  - destruct (String.leb a x) eqn:Hax.
    + constructor; [exact Hs | constructor; exact Hax].
    + apply Sorted_inv in Hs as [Hs Hhd].
      constructor; [apply IH; exact Hs |].
      assert (Hxa : lebs x a)
        by (destruct (String.leb_total a x) as [H | H]; [congruence | exact H]).
      destruct l as [| y l]; cbn [insertSorted].
      * constructor. exact Hxa.
      * destruct (String.leb a y); constructor; [exact Hxa |].
        apply HdRel_inv in Hhd. exact Hhd.
Qed.

Lemma sortStrings_sorted (l : list string) : Sorted lebs (sortStrings l).
Proof.
  induction l as [| a l IH]; [constructor |].
  cbn [sortStrings foldr]. apply insertSorted_sorted. exact IH.
Qed.

Lemma addParsed_fold (E : env) (sip : list string) :
  forall acc : slices,
    let acc' := fold_left (addParsed E) sip acc in
    ipsv4 acc' = ipsv4 acc ++ validOf E false sip
    /\ ipsv6 acc' = ipsv6 acc ++ validOf E true sip
    /\ s_ipv4 acc' = s_ipv4 acc ++ omap (parsedAs E false) sip
    /\ s_ipv6 acc' = s_ipv6 acc ++ omap (parsedAs E true) sip.
Proof.
  induction sip as [| ip sip IH]; intros acc; cbv zeta.
  - cbn. rewrite !app_nil_r. repeat split; reflexivity.
  - cbn [fold_left]. destruct (IH (addParsed E acc ip)) as (H1 & H2 & H3 & H4).
    rewrite H1, H2, H3, H4. clear IH H1 H2 H3 H4.
    change (omap (parsedAs E false) (ip :: sip))
      with (match parsedAs E false ip with
            | Some x => x :: omap (parsedAs E false) sip
            | None => omap (parsedAs E false) sip
            end).
    change (omap (parsedAs E true) (ip :: sip))
      with (match parsedAs E true ip with
            | Some x => x :: omap (parsedAs E true) sip
            | None => omap (parsedAs E true) sip
            end).
    unfold validOf, addParsed, parsedAs. cbn [List.filter].
    destruct (ParseIP E ip) as [ipp |], (containsColon ip); cbn;
      rewrite <- ?app_assoc; repeat split; reflexivity.
Qed.

Lemma updateHostIPs_known (E : env) (host : string) (sip : list string)
    (s : svc) (r : ips) :
  hosts s !! host = Some r ->
  updateHostIPs E host sip s
  = (true,
     {| hosts :=
          <[host := {| idx := if Z.of_nat (length (sortStrings (validOf E false sip))) - 1
                                 <? idx r then 0 else idx r;
                       ip4 := sortStrings (validOf E false sip);
                       ip6 := sortStrings (validOf E true sip);
                       ipv4 := omap (parsedAs E false) sip;
                       ipv6 := omap (parsedAs E true) sip |}]> (hosts s) |}).
Proof.
  intros Hh. unfold updateHostIPs. rewrite Hh.
  destruct (addParsed_fold E sip
              {| ipsv4 := []; ipsv6 := []; s_ipv4 := []; s_ipv6 := [] |})
    as (H1 & H2 & H3 & H4).
  cbn [ipsv4 ipsv6 s_ipv4 s_ipv6 app] in H1, H2, H3, H4.
  rewrite H1, H2, H3, H4. reflexivity.
Qed.

(** updateHostIPs on a host that is not in the map changes nothing and
    answers false, which ends the goroutine of the host; on a host of the
    map it answers true and stores the strings that parse, split by family
    on the colon and each family sorted, together with the parsed addresses
    in the order of the answer; the rotation index is kept, or reset to 0
    when it would lie beyond the new list. *)
Theorem updateHostIPs_stores (E : env) (host : string) (sip : list string)
    (s : svc) :
  match hosts s !! host with
  | None => updateHostIPs E host sip s = (false, s)
  | Some r =>
      exists r' : ips,
        updateHostIPs E host sip s = (true, {| hosts := <[host := r']> (hosts s) |})
        /\ ip4 r' ≡ₚ validOf E false sip /\ Sorted lebs (ip4 r')
        /\ ip6 r' ≡ₚ validOf E true sip /\ Sorted lebs (ip6 r')
        /\ ipv4 r' = omap (parsedAs E false) sip
        /\ ipv6 r' = omap (parsedAs E true) sip
        /\ idx r' = (if Z.of_nat (length (ip4 r')) - 1 <? idx r then 0 else idx r)
  end.
Proof.
  destruct (hosts s !! host) as [r |] eqn:Hh.
  - eexists. split; [apply (updateHostIPs_known E host sip s r Hh) |].
    cbn [ip4 ip6 ipv4 ipv6 idx].
    split; [apply sortStrings_perm |]. split; [apply sortStrings_sorted |].
    split; [apply sortStrings_perm |]. split; [apply sortStrings_sorted |].
    auto.
  - unfold updateHostIPs. rewrite Hh. reflexivity.
Qed.

Lemma updateHostIPs_stores_witness :
  fst (updateHostIPs (osAnswers []) "ghost" ["10.0.0.1"%string] New) = false
  /\ GetIPsStr "a" (snd (updateHostIPs (osAnswers []) "a"
                           ["10.0.0.2"; "::1"; "bogus"; "10.0.0.1"]%string
                           (AddHost "a" New)))
     = (["10.0.0.1"; "10.0.0.2"]%string, ["::1"%string]).
Proof.
  pose proof (updateHostIPs_stores (osAnswers []) "ghost" ["10.0.0.1"%string] New) as H.
  assert (Hg : hosts New !! "ghost"%string = None) by apply lookup_empty.
  rewrite Hg in H. rewrite H. split; [reflexivity |].
  vm_compute. reflexivity.
Defined.

Lemma inRange_New : inRange New.
Proof. intros h r H. cbn in H. rewrite lookup_empty in H. discriminate. Qed.

Lemma inRange_AddHost (host : string) (s : svc) :
  inRange s -> inRange (AddHost host s).
Proof.
  intros HR. unfold AddHost. destruct (hosts s !! host) eqn:Hh; [exact HR |].
  intros h r H. cbn in H.
  apply lookup_insert_Some in H as [[_ <-] | [_ H]]; [cbn; pow2; lia |].
  exact (HR h r H).
Qed.

Lemma inRange_updateHostIPs (E : env) (host : string) (sip : list string)
    (s : svc) :
  inRange s -> Z.of_nat (length sip) < 2 ^ 63 ->
  inRange (snd (updateHostIPs E host sip s)).
Proof.
  intros HR Hsip. destruct (hosts s !! host) as [r |] eqn:Hh.
  - rewrite (updateHostIPs_known E host sip s r Hh). cbn [snd].
    destruct (HR host r Hh) as (H0 & _).
    assert (Hlen : (length (sortStrings (validOf E false sip)) <= length sip)%nat).
    { rewrite (Permutation_length (sortStrings_perm _)).
      unfold validOf. apply filter_length_le. }
    intros h r0 H. cbn in H.
    apply lookup_insert_Some in H as [[_ <-] | [_ H]]; [| exact (HR h r0 H)].
    cbn [idx ip4].
    destruct (Z.ltb_spec (Z.of_nat (length (sortStrings (validOf E false sip))) - 1)
                         (idx r)); lia.
  - unfold updateHostIPs. rewrite Hh. exact HR.
Qed.

Lemma add_int64_small (a : Z) : 0 <= a < 2 ^ 63 - 1 -> add_int64 a 1 = a + 1.
Proof.
  intros H. unfold add_int64. pow2. rewrite Z.mod_small by lia. lia.
Qed.

(** GetNextIP, on a service whose rotation indexes are in range and with
    no write of updateHostIPs falling inside the call, does not panic: it
    answers the empty string for a host that is unknown or has no IPv4
    address, and otherwise steps the index to the next position,
    cyclically, stores it and answers the string there; the indexes of the
    service it leaves are in range again. *)
Theorem GetNextIP_in_range (host : string) (s : svc) :
  inRange s ->
  match hosts s !! host with
  | None => GetNextIP noWrites host s = Done (""%string, s)
  | Some r =>
      (ip4 r = [] -> GetNextIP noWrites host s = Done (""%string, s))
      /\ (ip4 r <> [] ->
          let i := (idx r + 1) mod Z.of_nat (length (ip4 r)) in
          let s' := {| hosts := <[host := {| idx := i; ip4 := ip4 r; ip6 := ip6 r;
                                             ipv4 := ipv4 r; ipv6 := ipv6 r |}]>
                                  (hosts s) |} in
          exists a : string,
            GetNextIP noWrites host s = Done (a, s')
            /\ ip4 r !! Z.to_nat i = Some a
            /\ inRange s')
  end.
Proof.
  intros HR. destruct (hosts s !! host) as [r |] eqn:Hh.
  2:{ unfold GetNextIP. rewrite Hh. reflexivity. }
  destruct (HR host r Hh) as (H0 & Hmax & Hlen).
  split.
  - intros He. unfold GetNextIP. rewrite Hh, He. reflexivity.
  - intros Hne. cbv zeta.
    assert (Hn : 0 < Z.of_nat (length (ip4 r)))
      by (destruct (ip4 r); [congruence | cbn [length]; lia]).
    pose proof (Z.mod_pos_bound (idx r + 1) _ Hn) as Hb.
    destruct (lookup_lt_is_Some_2 (ip4 r)
                (Z.to_nat ((idx r + 1) mod Z.of_nat (length (ip4 r)))))
      as [a Ha]; [lia |].
    exists a. split; [| split; [exact Ha |]].
    + unfold GetNextIP, noWrites. rewrite Hh. cbn [idx ip4].
      destruct (Z.eqb_spec (Z.of_nat (length (ip4 r))) 0) as [? | _]; [lia |].
      rewrite add_int64_small by lia.
      rewrite Z.rem_mod_nonneg by lia.
      destruct (Z.ltb_spec ((idx r + 1) mod Z.of_nat (length (ip4 r))) 0) as [? | _];
        [lia |].
      rewrite Ha. reflexivity.
    + intros host' r' H'. cbn in H'.
      destruct (decide (host = host')) as [<- | Hd].
      * rewrite lookup_insert_eq in H'. injection H' as <-. cbn. lia.
      * rewrite lookup_insert_ne in H' by exact Hd. exact (HR host' r' H').
Qed.

Lemma GetNextIP_in_range_witness :
  exists s' : svc,
    GetNextIP noWrites "a"
      (snd (updateHostIPs (osAnswers []) "a" ["10.0.0.2"; "10.0.0.1"]%string
                          (AddHost "a" New)))
    = Done ("10.0.0.2"%string, s').
Proof.
  set (s := snd (updateHostIPs (osAnswers []) "a" ["10.0.0.2"; "10.0.0.1"]%string
                               (AddHost "a" New))).
  assert (HR : inRange s).
  { subst s. apply inRange_updateHostIPs;
      [apply inRange_AddHost, inRange_New | cbn; pow2; lia]. }
  pose proof (GetNextIP_in_range "a" s HR) as H.
  assert (Hh : hosts s !! "a"%string
               = Some {| idx := 0; ip4 := ["10.0.0.1"; "10.0.0.2"]%string; ip6 := [];
                         ipv4 := [[Byte.x0a; Byte.x00; Byte.x00; Byte.x02];
                                  [Byte.x0a; Byte.x00; Byte.x00; Byte.x01]];
                         ipv6 := [] |}) by (vm_compute; reflexivity).
  rewrite Hh in H. destruct H as [_ H].
  destruct H as (a & Hrun & Ha & _); [discriminate |].
  cbn in Ha. injection Ha as <-. eexists. exact Hrun.
Defined.

(** With a write of updateHostIPs inside the call the index that GetNextIP
    has just stored is used on the list stored meanwhile: when the new list
    is shorter, here empty, the call panics although the indexes were in
    range when it began. *)
Lemma GetNextIP_races_with_update :
  let s := snd (updateHostIPs (osAnswers []) "a" ["10.0.0.2"; "10.0.0.1"]%string
                              (AddHost "a" New)) in
  inRange s
  /\ GetNextIP (storesIp4 2 []) "a" s = Panic "index out of range".
Proof.
  cbv zeta. split; [| vm_compute; reflexivity].
  apply inRange_updateHostIPs;
    [apply inRange_AddHost, inRange_New | cbn; pow2; lia].
Qed.

(** Every operation of the service keeps the rotation indexes in range,
    and a new service has them in range. *)
Theorem inRange_preserved (E : env) (host : string) (sip : list string) (s : svc) :
  inRange s -> Z.of_nat (length sip) < 2 ^ 63 ->
  inRange New
  /\ inRange (AddHost host s)
  /\ inRange (DelHost host s)
  /\ inRange (snd (updateHostIPs E host sip s)).
Proof.
  intros HR Hsip. split; [apply inRange_New |].
  split; [apply inRange_AddHost; exact HR |].
  split.
  { intros h r H. cbn in H. apply lookup_delete_Some in H as [_ H].
    exact (HR h r H). }
  destruct (hosts s !! host) as [r |] eqn:Hh.
  - rewrite (updateHostIPs_known E host sip s r Hh). cbn [snd].
    destruct (HR host r Hh) as (H0 & _).
    assert (Hlen : (length (sortStrings (validOf E false sip)) <= length sip)%nat).
    { rewrite (Permutation_length (sortStrings_perm _)).
      unfold validOf. apply filter_length_le. }
    intros h r0 H. cbn in H.
    apply lookup_insert_Some in H as [[_ <-] | [_ H]]; [| exact (HR h r0 H)].
    cbn [idx ip4].
    destruct (Z.ltb_spec (Z.of_nat (length (sortStrings (validOf E false sip))) - 1)
                         (idx r)); lia.
  - unfold updateHostIPs. rewrite Hh. exact HR.
Qed.

Lemma inRange_preserved_witness :
  inRange (snd (updateHostIPs (osAnswers []) "a" ["10.0.0.2"; "::1"; "10.0.0.1"]%string
                              (AddHost "a" New))).
Proof.
  refine (proj2 (proj2 (proj2 (inRange_preserved (osAnswers []) "a"
            ["10.0.0.2"; "::1"; "10.0.0.1"]%string (AddHost "a" New) _ _)))).
  - apply inRange_AddHost, inRange_New.
  - cbn; pow2; lia.
Defined.

End LegacyFacts.
